(** * dbfUtils: a reader and a writer for Xbase DBF files

    A shallow embedding of [src/dbfUtils.py] (Python 2) and the properties
    of its two functions, [dbfreader] and [dbfwriter].

    Conventions of the embedding.
    - A Python 2 [str] is a byte string: [bytes], a list of [ascii].
    - A binary file open for reading is the list of the bytes not yet
      read; [f.read(n)] splits it.  A file open for writing is the list of
      the bytes written so far.
    - An exception is a constructor of [exn]; a computation that may raise
      returns a [result].
    - [dbfreader] is a generator: a run of it is the list of the rows it
      yielded, the exception that ended it (if one did) and the bytes left
      in the file.
    - A Python 2 [int] or [long] is a [Z]; [xrange] takes any record count
      of the header, as on a 64-bit build.
    - The library functions the code calls ([struct], [int], [str],
      [decimal.Decimal], [datetime.date]) are written out as Python 2.7
      defines them, for the arguments the code gives them. *)

From Stdlib Require Import ZArith Ascii String Bool Lia List.
From Stdlib Require Import DecimalString DecimalPos.
Import ListNotations.

Local Open Scope char_scope.
Local Open Scope Z_scope.

(* ================================================================== *)
(** ** Byte strings *)

Definition bytes := list ascii.

(** A literal: [B "abc"] is the Python string ['abc']. *)
Definition B (s : string) : bytes := list_ascii_of_string s.

Definition ord (c : ascii) : Z := Z.of_N (N_of_ascii c).
Definition chr (n : Z) : ascii := ascii_of_N (Z.to_N n).

Definition len (s : bytes) : Z := Z.of_nat (length s).

Fixpoint bytes_eqb (s t : bytes) : bool :=
  match s, t with
  | [], [] => true
  | c :: s', d :: t' => Ascii.eqb c d && bytes_eqb s' t'
  | _, _ => false
  end.

(** C's [isspace] in the C locale, which Python 2 uses for [str.lstrip],
    [str.strip] and for the white space [int()] accepts. *)
Definition isspace (c : ascii) : bool :=
  let n := ord c in (n =? 32) || ((9 <=? n) && (n <=? 13)).

Definition isdigit (c : ascii) : bool :=
  let n := ord c in (48 <=? n) && (n <=? 57).

(** [s.lstrip()] *)
Fixpoint lstrip (s : bytes) : bytes :=
  match s with
  | [] => []
  | c :: s' => if isspace c then lstrip s' else s
  end.

Definition is_empty (s : bytes) : bool :=
  match s with [] => true | _ :: _ => false end.

(** [s.rstrip()] *)
Fixpoint rstrip (s : bytes) : bytes :=
  match s with
  | [] => []
  | c :: s' =>
      let r := rstrip s' in
      if isspace c && is_empty r then [] else c :: r
  end.

(** [s.strip()] *)
Definition strip (s : bytes) : bytes := rstrip (lstrip s).

(** [s.replace('\0', '')] *)
Definition replace_nul (s : bytes) : bytes :=
  filter (fun c => negb (Ascii.eqb c zero)) s.

(** [s.ljust(width, fill)] and [s.rjust(width, fill)]: a string already
    [width] long or longer (also for a negative [width]) is returned as it
    is. *)
Definition ljust (s : bytes) (width : Z) (fill : ascii) : bytes :=
  s ++ repeat fill (Z.to_nat (width - len s)).

Definition rjust (s : bytes) (width : Z) (fill : ascii) : bytes :=
  repeat fill (Z.to_nat (width - len s)) ++ s.

(** The slice [s[i:j]] for [0 <= i <= j]. *)
Definition slice (s : bytes) (i j : nat) : bytes := firstn (j - i) (skipn i s).

(** The slice [s[:n]]; a negative [n] counts from the end. *)
Definition slice_to (s : bytes) (n : Z) : bytes :=
  if n <? 0 then firstn (Z.to_nat (len s + n)) s else firstn (Z.to_nat n) s.

(** [c.upper()] on one character (C locale). *)
Definition upper (c : ascii) : ascii :=
  let n := ord c in if (97 <=? n) && (n <=? 122) then chr (n - 32) else c.

(** [needle in hay] on strings: [needle] occurs in [hay] as a substring. *)
Fixpoint is_prefix (p s : bytes) : bool :=
  match p, s with
  | [], _ => true
  | c :: p', d :: s' => Ascii.eqb c d && is_prefix p' s'
  | _ :: _, [] => false
  end.

Fixpoint str_in (needle hay : bytes) : bool :=
  is_prefix needle hay ||
  match hay with
  | [] => false
  | _ :: hay' => str_in needle hay'
  end.

(* ================================================================== *)
(** ** Exceptions *)

Inductive exn : Set :=
| StructError       (* struct.error *)
| AssertionError
| ValueError
| InvalidOperation  (* decimal.InvalidOperation *)
| AttributeError
| IndexError.

Inductive result (A : Type) : Type :=
| Ok (a : A)
| Raise (e : exn).
Arguments Ok {A} a.
Arguments Raise {A} e.

Definition bind {A C : Type} (m : result A) (k : A -> result C) : result C :=
  match m with
  | Ok a => k a
  | Raise e => Raise e
  end.

Notation "x <- m ;; k" := (bind m (fun x => k))
  (at level 61, m at next level, right associativity).
Notation "' p <- m ;; k" := (bind m (fun x => let p := x in k))
  (at level 61, p pattern, m at next level, right associativity).

(* ================================================================== *)
(** ** Numbers as text *)

(** [str(n)] for an [int] or a [long]. *)
Definition str_int (n : Z) : bytes :=
  list_ascii_of_string (NilZero.string_of_int (Z.to_int n)).

Definition digit_value (c : ascii) : Z := ord c - 48.

Definition digits_value (ds : bytes) : Z :=
  fold_left (fun acc c => 10 * acc + digit_value c) ds 0.

(** [int(s)] on a string, base ten.  Python 2 strips white space at both
    ends, takes an optional sign, skips white space again after the sign,
    and wants one digit or more and nothing else. *)
Definition int_body (s : bytes) : result Z :=
  if is_empty s then Raise ValueError
  else if forallb isdigit s then Ok (digits_value s)
  else Raise ValueError.

Definition py_int (s : bytes) : result Z :=
  match strip s with
  | "+" :: r => int_body (lstrip r)
  | "-" :: r => n <- int_body (lstrip r) ;; Ok (- n)
  | r => int_body r
  end.

(* ================================================================== *)
(** ** decimal.Decimal *)

(** A [decimal.Decimal]: its sign, coefficient and exponent, or one of the
    special values.  The coefficient, which Python keeps as the canonical
    digit string [_int], is the number that string writes. *)
Inductive PyDecimal : Set :=
| DecFinite (sign : bool) (coefficient : Z) (exponent : Z)
| DecInf (sign : bool)
| DecNaN (sign : bool) (signaling : bool) (diagnostic : Z).

(** The longest run of digits at the front of [s], and what follows. *)
Fixpoint span_digits (s : bytes) : bytes * bytes :=
  match s with
  | [] => ([], [])
  | c :: s' =>
      if isdigit c then let (ds, r) := span_digits s' in (c :: ds, r)
      else ([], s)
  end.

Definition lower (c : ascii) : ascii :=
  let n := ord c in if (65 <=? n) && (n <=? 90) then chr (n + 32) else c.

(** [s] is the lower-case word [w], whatever the case of its letters. *)
Definition is_word (s : bytes) (w : string) : bool :=
  bytes_eqb (map lower s) (B w).

Definition signed_digits (s : bytes) : option Z :=
  let '(neg, ds) :=
    match s with
    | "+" :: r => (false, r)
    | "-" :: r => (true, r)
    | _ => (false, s)
    end in
  if is_empty ds || negb (forallb isdigit ds) then None
  else Some (if neg then - digits_value ds else digits_value ds).

(** The optional exponent, up to the end of the string. *)
Definition parse_exp (s : bytes) : option Z :=
  match s with
  | [] => Some 0
  | e :: r => if Ascii.eqb (lower e) "e" then signed_digits r else None
  end.

(** A number with one digit at least, an optional fraction and an optional
    exponent: its coefficient and exponent. *)
Definition parse_number (s : bytes) : option (Z * Z) :=
  let (intpart, r) := span_digits s in
  let '(fracpart, r') :=
    match r with
    | "." :: r1 => span_digits r1
    | _ => ([], r)
    end in
  if is_empty intpart && is_empty fracpart then None
  else
    match parse_exp r' with
    | Some e => Some (digits_value (intpart ++ fracpart), e - len fracpart)
    | None => None
    end.

Definition parse_special (sign : bool) (s : bytes) : option PyDecimal :=
  if is_word s "inf" || is_word s "infinity" then Some (DecInf sign)
  else
    let '(signal, r) :=
      match s with
      | c :: r' => if Ascii.eqb (lower c) "s" then (true, r') else (false, s)
      | [] => (false, s)
      end in
    if is_word (firstn 3 r) "nan" && forallb isdigit (skipn 3 r)
    then Some (DecNaN sign signal (digits_value (skipn 3 r)))
    else None.

(** [decimal.Decimal(s)] on a string: the string is stripped, then matched
    against the grammar of numeric strings; no match raises
    [InvalidOperation]. *)
Definition Decimal (s : bytes) : result PyDecimal :=
  let '(sign, r) :=
    match strip s with
    | "+" :: r => (false, r)
    | "-" :: r => (true, r)
    | r => (false, r)
    end in
  match parse_number r with
  | Some (c, e) => Ok (DecFinite sign c e)
  | None =>
      match parse_special sign r with
      | Some d => Ok d
      | None => Raise InvalidOperation
      end
  end.

Definition sign_str (sign : bool) : bytes := if sign then ["-"] else [].

(** ["%+d" % n] *)
Definition str_signed (n : Z) : bytes :=
  if 0 <=? n then "+" :: str_int n else str_int n.

(** [str(d)]: scientific notation when the exponent is positive or the
    number is smaller than 1e-6. *)
Definition str_decimal (d : PyDecimal) : bytes :=
  match d with
  | DecInf sign => sign_str sign ++ B "Infinity"
  | DecNaN sign signal diag =>
      sign_str sign ++ (if signal then B "sNaN" else B "NaN")
      ++ (if diag =? 0 then [] else str_int diag)
  | DecFinite sign coeff exp =>
      let int_ := str_int coeff in
      let leftdigits := exp + len int_ in
      let dotplace :=
        if (exp <=? 0) && (-6 <? leftdigits) then leftdigits else 1 in
      let '(intpart, fracpart) :=
        if dotplace <=? 0 then
          (B "0", "." :: repeat "0" (Z.to_nat (- dotplace)) ++ int_)
        else if len int_ <=? dotplace then
          (int_ ++ repeat "0" (Z.to_nat (dotplace - len int_)), [])
        else
          (firstn (Z.to_nat dotplace) int_,
           "." :: skipn (Z.to_nat dotplace) int_) in
      let exp_ :=
        if leftdigits =? dotplace then []
        else "E" :: str_signed (leftdigits - dotplace) in
      sign_str sign ++ intpart ++ fracpart ++ exp_
  end.

(* ================================================================== *)
(** ** Field values *)

(** The values a record holds: what [dbfreader] yields and what
    [dbfwriter] is documented to take. *)
Inductive pyval : Set :=
| VInt (n : Z)
| VDecimal (d : PyDecimal)
| VDate (year month day : Z)
| VStr (s : bytes).

Definition is_leap (y : Z) : bool :=
  (y mod 4 =? 0) && (negb (y mod 100 =? 0) || (y mod 400 =? 0)).

Definition days_in_month (y m : Z) : Z :=
  if m =? 2 then (if is_leap y then 29 else 28)
  else if (m =? 4) || (m =? 6) || (m =? 9) || (m =? 11) then 30
  else 31.

(** [datetime.date(y, m, d)] *)
Definition date (y m d : Z) : result pyval :=
  if (1 <=? y) && (y <=? 9999) && (1 <=? m) && (m <=? 12)
     && (1 <=? d) && (d <=? days_in_month y m)
  then Ok (VDate y m d)
  else Raise ValueError.

(** [n] in decimal, padded with zeros on the left to [width] digits. *)
Definition zpad (width : Z) (n : Z) : bytes := rjust (str_int n) width "0".

(** [str(v)] *)
Definition str (v : pyval) : bytes :=
  match v with
  | VInt n => str_int n
  | VDecimal d => str_decimal d
  | VDate y m d => zpad 4 y ++ "-" :: zpad 2 m ++ "-" :: zpad 2 d
  | VStr s => s
  end.

(** [v.strftime('%Y%m%d')]: only a date has the method, and Python 2
    refuses a year before 1900. *)
Definition strftime_Ymd (v : pyval) : result bytes :=
  match v with
  | VDate y m d =>
      if y <? 1900 then Raise ValueError
      else Ok (zpad 4 y ++ zpad 2 m ++ zpad 2 d)
  | _ => Raise AttributeError
  end.

(* ================================================================== *)
(** ** struct *)

(** An unsigned integer in [n] bytes, the low byte first. *)
Fixpoint pack_le (n : nat) (v : Z) : bytes :=
  match n with
  | O => []
  | S n' => chr (v mod 256) :: pack_le n' (v / 256)
  end.

Fixpoint unpack_le (data : bytes) : Z :=
  match data with
  | [] => 0
  | c :: data' => ord c + 256 * unpack_le data'
  end.

(** The codes [B], [H] and [L] of a [<] format ([n] is 1, 2 and 4): a
    value out of range raises [struct.error]. *)
Definition pack_uint (n : nat) (v : Z) : result bytes :=
  if (0 <=? v) && (v <? 256 ^ Z.of_nat n) then Ok (pack_le n v)
  else Raise StructError.

(** The code [x]: pad bytes. *)
Definition pad (n : nat) : bytes := repeat zero n.

(** [struct.pack('<BBBBLHH20x', ver, yr, mon, day, numrec, lenheader,
    lenrecord)] *)
Definition pack_header (ver yr mon day numrec lenheader lenrecord : Z)
  : result bytes :=
  b0 <- pack_uint 1 ver ;;
  b1 <- pack_uint 1 yr ;;
  b2 <- pack_uint 1 mon ;;
  b3 <- pack_uint 1 day ;;
  b4 <- pack_uint 4 numrec ;;
  b8 <- pack_uint 2 lenheader ;;
  b10 <- pack_uint 2 lenrecord ;;
  Ok (b0 ++ b1 ++ b2 ++ b3 ++ b4 ++ b8 ++ b10 ++ pad 20).

(** [struct.unpack('<xxxxLH22x', data)] *)
Definition unpack_header (data : bytes) : result (Z * Z) :=
  if (length data =? 32)%nat
  then Ok (unpack_le (slice data 4 8), unpack_le (slice data 8 10))
  else Raise StructError.

(** [struct.pack('<11sc4xBB14x', name, typ, size, deci)]: the code [11s]
    cuts or pads the name to 11 bytes, the code [c] wants a string of one
    character. *)
Definition pack_field (name typ : bytes) (size deci : Z) : result bytes :=
  c <- (if (length typ =? 1)%nat then Ok typ else Raise StructError) ;;
  s <- pack_uint 1 size ;;
  d <- pack_uint 1 deci ;;
  Ok (ljust (firstn 11 name) 11 zero ++ c ++ pad 4 ++ s ++ d ++ pad 14).

(** [struct.unpack('<11sc4xBB14x', data)] *)
Definition unpack_field (data : bytes) : result (bytes * bytes * Z * Z) :=
  if (length data =? 32)%nat
  then Ok (slice data 0 11, slice data 11 12,
           unpack_le (slice data 16 17), unpack_le (slice data 17 18))
  else Raise StructError.

(** The data of a format ['%ds%ds...'] cut into its strings. *)
Fixpoint split_sizes (sizes : list Z) (data : bytes) : list bytes :=
  match sizes with
  | [] => []
  | n :: sizes' =>
      firstn (Z.to_nat n) data :: split_sizes sizes' (skipn (Z.to_nat n) data)
  end.

(** [struct.calcsize(fmt)] for such a format. *)
Definition calcsize (sizes : list Z) : Z := fold_right Z.add 0 sizes.

(** [struct.unpack(fmt, data)] for such a format: the data must be as long
    as the format says. *)
Definition unpack_strings (sizes : list Z) (data : bytes)
  : result (list bytes) :=
  if len data =? calcsize sizes then Ok (split_sizes sizes data)
  else Raise StructError.

(* ================================================================== *)
(** ** The file read *)

(** [f.read(n)]: the next [n] bytes, or fewer at the end of the file, and
    the file after them. *)
Definition read (n : Z) (f : bytes) : bytes * bytes :=
  (firstn (Z.to_nat n) f, skipn (Z.to_nat n) f).

(* ================================================================== *)
(** ** dbfreader *)

(** A field as [dbfreader] keeps it: [(name, typ, size, deci)]. *)
Definition field : Set := (bytes * bytes * Z * Z)%type.

(** A field spec: [(typ, size, deci)]. *)
Definition fieldspec : Set := (bytes * Z * Z)%type.

(** What the generator yields: the field names first, the field specs
    second, then one list of values for every record. *)
Inductive row : Set :=
| Names (names : list bytes)
| Specs (specs : list fieldspec)
| Record_ (values : list pyval).

(** A run of the generator to its end: the rows yielded, in order, and how
    it ended: normally, leaving the file at [Ok rest], or with an
    exception. *)
Definition run : Set := (list row * result bytes)%type.

(** The loop [for fieldno in xrange(numfields)]. *)
Fixpoint read_fields (numfields : nat) (f : bytes)
  : result (list field * bytes) :=
  match numfields with
  | O => Ok ([], f)
  | S n =>
      let (data, f1) := read 32 f in
      ' (name, typ, size, deci) <- unpack_field data ;;
      ' (fields, f2) <- read_fields n f1 ;;
      Ok ((replace_nul name, typ, size, deci) :: fields, f2)
  end.

(** The branch for [typ == 'N']. *)
Definition decode_numeric (deci : Z) (value : bytes) : result pyval :=
  let value := lstrip (replace_nul value) in
  if bytes_eqb value [] then Ok (VInt 0)
  else if negb (deci =? 0) then d <- Decimal value ;; Ok (VDecimal d)
  else n <- py_int value ;; Ok (VInt n).

(** The branch for [typ == 'D']. *)
Definition decode_date (value : bytes) : result pyval :=
  y <- py_int (slice_to value 4) ;;
  m <- py_int (slice value 4 6) ;;
  d <- py_int (slice value 6 8) ;;
  date y m d.

(** The branch for [typ == 'L']. *)
Definition decode_logical (value : bytes) : pyval :=
  VStr (if str_in value (B "YyTt") then B "T"
        else if str_in value (B "NnFf") then B "F"
        else B "?").

(** The chain [if typ == 'N': ... elif typ == 'D': ... elif typ == 'L':
    ...] in the loop over the fields of a record; with any other [typ] the
    value stays the string that was read. *)
Definition decode_value (typ : bytes) (deci : Z) (value : bytes)
  : result pyval :=
  if bytes_eqb typ (B "N") then decode_numeric deci value
  else if bytes_eqb typ (B "D") then decode_date value
  else if bytes_eqb typ (B "L") then Ok (decode_logical value)
  else Ok (VStr value).

(** The loop over [itertools.izip(fields, record)]. *)
Fixpoint decode_fields (l : list (field * bytes)) : result (list pyval) :=
  match l with
  | [] => Ok []
  | ((name, typ, size, deci), value) :: l' =>
      if bytes_eqb name (B "DeletionFlag") then decode_fields l'
      else
        v <- decode_value typ deci value ;;
        result <- decode_fields l' ;;
        Ok (v :: result)
  end.

Definition field_size (fieldinfo : field) : Z :=
  let '(_, _, size, _) := fieldinfo in size.

(** The loop [for i in xrange(numrec)]. *)
Fixpoint read_records (fields : list field) (numrec : nat) (f : bytes) : run :=
  match numrec with
  | O => ([], Ok f)
  | S n =>
      let fmt := map field_size fields in
      let (data, f1) := read (calcsize fmt) f in
      match unpack_strings fmt data with
      | Raise e => ([], Raise e)
      | Ok [] => ([], Raise IndexError)
      | Ok ((flag :: _) as record) =>
          if negb (bytes_eqb flag (B " "))
          then read_records fields n f1
          else
            match decode_fields (combine fields record) with
            | Raise e => ([], Raise e)
            | Ok result =>
                let (rows, ending) := read_records fields n f1 in
                (Record_ result :: rows, ending)
            end
      end
  end.

Definition field_name (fieldinfo : field) : bytes :=
  let '(name, _, _, _) := fieldinfo in name.

Definition field_spec (fieldinfo : field) : fieldspec :=
  let '(_, typ, size, deci) := fieldinfo in (typ, size, deci).

Definition DeletionFlag : field := (B "DeletionFlag", B "C", 1, 0).

Definition dbfreader (f : bytes) : run :=
  let (data, f1) := read 32 f in
  match unpack_header data with
  | Raise e => ([], Raise e)
  | Ok (numrec, lenheader) =>
      let numfields := (lenheader - 33) / 32 in
      match read_fields (Z.to_nat numfields) f1 with
      | Raise e => ([], Raise e)
      | Ok (fields, f2) =>
          let head := [Names (map field_name fields);
                       Specs (map field_spec fields)] in
          let (terminator, f3) := read 1 f2 in
          if negb (bytes_eqb terminator [chr 13]) then
            (head, Raise AssertionError)
          else
            let (rows, ending) :=
              read_records (DeletionFlag :: fields) (Z.to_nat numrec) f3 in
            (head ++ rows, ending)
      end
  end.

(* ================================================================== *)
(** ** dbfwriter *)

(** What a stretch of the writer did: the bytes it wrote to the file, and
    the exception that stopped it, if one did. *)
Definition written : Set := (bytes * option exn)%type.

Definition emit (s : bytes) : written := (s, None).

(** One stretch after another: the second runs when the first ended
    without an exception. *)
Definition and_then (a b : written) : written :=
  match a with
  | (o, None) => let (o', e) := b in (o ++ o', e)
  | (o, Some e) => (o, Some e)
  end.

(** What one field is rendered to, before its length is checked. *)
Definition render_value (typ : bytes) (size : Z) (v : pyval) : result bytes :=
  if bytes_eqb typ (B "N") then Ok (rjust (str v) size " ")
  else if bytes_eqb typ (B "D") then strftime_Ymd v
  else if bytes_eqb typ (B "L") then
    match str v with
    | [] => Raise IndexError
    | c :: _ => Ok [upper c]
    end
  else Ok (ljust (slice_to (str v) size) size " ").

(** The body of the loop over the fields of a record, up to the write:
    the rendering and [assert len(value) == size]. *)
Definition encode_value (typ : bytes) (size : Z) (v : pyval) : result bytes :=
  s <- render_value typ size v ;;
  if len s =? size then Ok s else Raise AssertionError.

(** The loop over [itertools.izip(fieldspecs, record)]. *)
Fixpoint write_fields (l : list (fieldspec * pyval)) : written :=
  match l with
  | [] => emit []
  | ((typ, size, deci), v) :: l' =>
      match encode_value typ size v with
      | Raise e => ([], Some e)
      | Ok s => and_then (emit s) (write_fields l')
      end
  end.

(** The body of the loop [for record in records]. *)
Definition write_record (fieldspecs : list fieldspec) (record : list pyval)
  : written :=
  and_then (emit (B " ")) (write_fields (combine fieldspecs record)).

Fixpoint write_records (fieldspecs : list fieldspec)
  (records : list (list pyval)) : written :=
  match records with
  | [] => emit []
  | record :: records' =>
      and_then (write_record fieldspecs record)
               (write_records fieldspecs records')
  end.

(** The loop over [itertools.izip(fieldnames, fieldspecs)]. *)
Fixpoint write_specs (l : list (bytes * fieldspec)) : written :=
  match l with
  | [] => emit []
  | (name, (typ, size, deci)) :: l' =>
      match pack_field (ljust name 11 zero) typ size deci with
      | Raise e => ([], Some e)
      | Ok fld => and_then (emit fld) (write_specs l')
      end
  end.

Definition spec_size (spec : fieldspec) : Z :=
  let '(_, size, _) := spec in size.

(** [dbfwriter(f, fieldnames, fieldspecs, records, numrec)] on a new file,
    on the day [now = (year, month, day)]; [numrec = None] is the default
    of the parameter. *)
Definition dbfwriter (now : Z * Z * Z) (fieldnames : list bytes)
  (fieldspecs : list fieldspec) (records : list (list pyval))
  (numrec : option Z) : written :=
  let '(year, month, day_) := now in
  let ver := 3 in
  let yr := year - 1900 in
  let numrec := match numrec with
                | None => Z.of_nat (length records)
                | Some n => n
                end in
  let numfields := Z.of_nat (length fieldspecs) in
  let lenheader := numfields * 32 + 33 in
  let lenrecord := fold_right Z.add 0 (map spec_size fieldspecs) + 1 in
  match pack_header ver yr month day_ numrec lenheader lenrecord with
  | Raise e => ([], Some e)
  | Ok hdr =>
      and_then (emit hdr)
     (and_then (write_specs (combine fieldnames fieldspecs))
     (and_then (emit [chr 13])
     (and_then (write_records fieldspecs records)
               (emit [chr 26]))))
  end.

(** The records a run yielded: its rows but the two of the header. *)
Fixpoint records_yielded (rows : list row) : list (list pyval) :=
  match rows with
  | [] => []
  | Record_ values :: rows' => values :: records_yielded rows'
  | _ :: rows' => records_yielded rows'
  end.

(* ================================================================== *)
(** ** The rule for numeric fields, in the words of the specification *)

(** The specification words the decoding of a numeric field so: trim NUL
    and leading and trailing white space; empty gives the integer zero;
    else, if [decimalPlaces > 0], the decimal parse of the trimmed text;
    else the integer parse.  This definition follows those words, not the
    code; [C3_numeric_rule] compares it with [decode_value]. *)
Definition numeric_rule (decimalPlaces : Z) (raw : bytes) : result pyval :=
  let trimmed := strip (replace_nul raw) in
  if is_empty trimmed then Ok (VInt 0)
  else if 0 <? decimalPlaces then d <- Decimal trimmed ;; Ok (VDecimal d)
  else n <- py_int trimmed ;; Ok (VInt n).

(* ================================================================== *)
(** ** Definitions for the properties *)

Definition example_names : list bytes := [B "Name"; B "Age"].
Definition example_specs : list fieldspec := [(B "C", 10, 0); (B "N", 3, 0)].
Definition example_record : list pyval := [VStr (B "Alice"); VInt 30].

(** A stretch that an exception stopped. *)
Definition failed (w : written) : Prop := snd w <> None.

(** A check of all the integers from [lo], [n] of them. *)
Fixpoint all_from (P : Z -> bool) (lo : Z) (n : nat) : bool :=
  match n with
  | O => true
  | S n' => P lo && all_from P (lo + 1) n'
  end.

(** The characters of a decimal number of the standard library, by which
    [str_int] is defined. *)
Definition uint_chars (d : Decimal.uint) : bytes :=
  list_ascii_of_string (NilEmpty.string_of_uint d).

(** One step of [digits_value]. *)
Definition digit_step (acc : Z) (c : ascii) : Z := 10 * acc + digit_value c.

(** The name of a field as a file holds it and the reader gives it: its
    first 11 bytes, the NUL bytes taken out. *)
Definition stored_name (name : bytes) : bytes := replace_nul (firstn 11 name).

Definition stored_field (x : bytes * fieldspec) : field :=
  let '(name, (typ, size, deci)) := x in (stored_name name, typ, size, deci).

(** A value that the writer renders for a field and the reader decodes
    from the bytes of that field. *)
Definition reread_value (spec : fieldspec) (v : pyval) : result pyval :=
  let '(typ, size, deci) := spec in
  s <- encode_value typ size v ;;
  decode_value typ deci s.

Fixpoint reread_fields (l : list (fieldspec * pyval)) : result (list pyval) :=
  match l with
  | [] => Ok []
  | (spec, v) :: l' =>
      x <- reread_value spec v ;;
      result <- reread_fields l' ;;
      Ok (x :: result)
  end.

(** The records one after the other, up to the first that has a value
    which cannot be decoded; [rest] is what the file holds behind them. *)
Fixpoint reread_records (fieldspecs : list fieldspec)
  (records : list (list pyval)) (rest : bytes) : run :=
  match records with
  | [] => ([], Ok rest)
  | record :: records' =>
      match reread_fields (combine fieldspecs record) with
      | Raise e => ([], Raise e)
      | Ok result =>
          let (rows, ending) := reread_records fieldspecs records' rest in
          (Record_ result :: rows, ending)
      end
  end.


(** A field spec that a descriptor has room for: a type of one character,
    a size and a count of decimal places of one byte each. *)
Definition valid_spec (spec : fieldspec) : bool :=
  let '(typ, size, deci) := spec in
  (length typ =? 1)%nat
  && (0 <=? size) && (size <? 256) && (0 <=? deci) && (deci <? 256).

(** A value that is rendered to the size of its field. *)
Definition encodes (x : fieldspec * pyval) : bool :=
  let '((typ, size, _), v) := x in
  match encode_value typ size v with
  | Ok _ => true
  | Raise _ => false
  end.


(** The bytes [fst cell] fill the field and are decoded to the value
    [snd cell]; the field has not the name of the deletion flag. *)
Definition decodes_to (fieldinfo : field) (cell : bytes * pyval) : Prop :=
  let '(name, typ, size, deci) := fieldinfo in
  name <> B "DeletionFlag"
  /\ len (fst cell) = size
  /\ decode_value typ deci (fst cell) = Ok (snd cell).

(* ================================================================== *)
(** * Properties *)

(** ** Byte strings and results *)

Lemma bytes_eqb_eq (s t : bytes) : bytes_eqb s t = true <-> s = t.
Proof.
  revert t; induction s as [|c s IH]; intros [|d t]; simpl;
    try (split; (reflexivity || discriminate)).
  rewrite andb_true_iff, Ascii.eqb_eq, IH.
  split; [intros [-> ->]; reflexivity | intros [= -> ->]; split; reflexivity].
Qed.

Lemma bytes_eqb_neq (s t : bytes) : s <> t -> bytes_eqb s t = false.
Proof.
  intros H; destruct (bytes_eqb s t) eqn:E; [|reflexivity].
  apply bytes_eqb_eq in E; contradiction.
Qed.

Lemma bytes_eqb_refl (s : bytes) : bytes_eqb s s = true.
Proof. apply bytes_eqb_eq; reflexivity. Qed.

Lemma ord_chr (n : Z) : 0 <= n < 256 -> ord (chr n) = n.
Proof.
  intros H; unfold ord, chr.
  rewrite N_ascii_embedding by lia.
  apply Z2N.id; lia.
Qed.

Lemma pack_uint_ok (n : nat) (v : Z) :
  0 <= v < 256 ^ Z.of_nat n -> pack_uint n v = Ok (pack_le n v).
Proof.
  intros [H0 H1]; unfold pack_uint.
  apply Z.leb_le in H0; apply Z.ltb_lt in H1; rewrite H0, H1; reflexivity.
Qed.

Lemma pack_uint_inv (n : nat) (v : Z) (s : bytes) :
  pack_uint n v = Ok s -> 0 <= v < 256 ^ Z.of_nat n /\ s = pack_le n v.
Proof.
  unfold pack_uint.
  destruct (0 <=? v) eqn:H0; destruct (v <? 256 ^ Z.of_nat n) eqn:H1;
    simpl; intros [= <-].
  apply Z.leb_le in H0; apply Z.ltb_lt in H1; auto.
Qed.

(* ================================================================== *)
(** ** The worked example of a file *)

(** C1. Writing the record [["Alice", 30]] with the field names [Name] and
    [Age] and the specs [('C', 10, 0)] and [('N', 3, 0)], on any day of the
    years 1900 to 2155 (the years the header has room for), succeeds, and
    reading the file written yields the field names, the field specs and
    the one record [["Alice     ", 30]], then ends, the end-of-file byte
    left unread. *)
Theorem C1_roundtrip_example (year month day_ : Z) :
  1900 <= year <= 2155 -> 1 <= month <= 12 -> 1 <= day_ <= 31 ->
  exists file,
    dbfwriter (year, month, day_) example_names example_specs
              [example_record] None = (file, None)
    /\ dbfreader file =
         ([Names [B "Name"; B "Age"];
           Specs [(B "C", 10, 0); (B "N", 3, 0)];
           Record_ [VStr (B "Alice     "); VInt 30]],
          Ok [chr 26]).
Proof.
  intros Hy Hm Hd.
  unfold dbfwriter, pack_header.
  rewrite (pack_uint_ok 1 (year - 1900)) by (simpl; lia).
  rewrite (pack_uint_ok 1 month) by (simpl; lia).
  rewrite (pack_uint_ok 1 day_) by (simpl; lia).
  cbn.
  eexists; split; [reflexivity|].
  reflexivity.
Qed.

Lemma C1_roundtrip_example_witness :
  exists file,
    dbfwriter (2008, 3, 14) example_names example_specs
              [example_record] None = (file, None)
    /\ dbfreader file =
         ([Names [B "Name"; B "Age"];
           Specs [(B "C", 10, 0); (B "N", 3, 0)];
           Record_ [VStr (B "Alice     "); VInt 30]],
          Ok [chr 26]).
Proof. apply (C1_roundtrip_example 2008 3 14); lia. Defined.

(** With a record count of 0 passed to the writer the header declares no
    record, and the reader yields none, though one was written. *)
Example zero_count_file :
  dbfreader (fst (dbfwriter (2008, 3, 14) example_names example_specs
                    [example_record] (Some 0)))
  = ([Names [B "Name"; B "Age"]; Specs [(B "C", 10, 0); (B "N", 3, 0)]],
     Ok (B " Alice      30" ++ [chr 26])).
Proof. vm_compute; reflexivity. Qed.

(* ================================================================== *)
(** ** Values of one field *)

(** C4. A logical field of one byte: [Y], [y], [T] and [t] decode to
    ['T'], [N], [n], [F] and [f] to ['F'], every other byte to ['?'];
    no byte raises an exception. *)
Theorem C4_logical_byte (deci : Z) (c : ascii) :
  decode_value (B "L") deci [c] =
    Ok (VStr (if existsb (Ascii.eqb c) ["Y"; "y"; "T"; "t"]%char then B "T"
              else if existsb (Ascii.eqb c) ["N"; "n"; "F"; "f"]%char
                   then B "F"
                   else B "?")).
Proof.
  destruct c as [[] [] [] [] [] [] [] []]; vm_compute; reflexivity.
Qed.

Example logical_space : decode_value (B "L") 0 (B " ") = Ok (VStr (B "?")).
Proof. reflexivity. Qed.

Example logical_question : decode_value (B "L") 0 (B "?") = Ok (VStr (B "?")).
Proof. reflexivity. Qed.

(** C7. The eight bytes [20230615] of a date field decode to the date
    2023-06-15, and that date is encoded, in a date field of size 8, to
    the same eight bytes. *)
Theorem C7_date_roundtrip (deci : Z) :
  decode_value (B "D") deci (B "20230615") = Ok (VDate 2023 6 15)
  /\ encode_value (B "D") 8 (VDate 2023 6 15) = Ok (B "20230615").
Proof. split; reflexivity. Qed.

(** C9, counterexample. A type code outside [C], [M], [D], [N], [L]
    raises nothing: the field
    is read and written as a character field is. *)
Lemma C9_unknown_type_counterexample :
  decode_value (B "X") 0 (B "ab") = Ok (VStr (B "ab"))
  /\ encode_value (B "X") 4 (VStr (B "ab")) = Ok (B "ab  ")
  /\ (exists file,
        dbfwriter (2008, 3, 14) [B "f"] [(B "X", 4, 0)] [[VStr (B "ab")]] None
          = (file, None)
        /\ dbfreader file =
             ([Names [B "f"]; Specs [(B "X", 4, 0)];
               Record_ [VStr (B "ab  ")]],
              Ok [chr 26])).
Proof.
  split; [reflexivity|]. split; [reflexivity|].
  exists (fst (dbfwriter (2008, 3, 14) [B "f"] [(B "X", 4, 0)]
                         [[VStr (B "ab")]] None)).
  split; vm_compute; reflexivity.
Qed.

(** C9, amended. With a type code other than [N], [D] and [L], whether in
    the set of the format or not, a field decodes to the string read,
    untouched, and is encoded as a field of type [C] is: the string of the
    value cut and padded with spaces to the size. *)
Theorem C9_other_types_are_text (typ : bytes) (size deci : Z)
  (raw : bytes) (v : pyval) :
  typ <> B "N" -> typ <> B "D" -> typ <> B "L" ->
  decode_value typ deci raw = Ok (VStr raw)
  /\ encode_value typ size v = encode_value (B "C") size v
  /\ render_value typ size v = Ok (ljust (slice_to (str v) size) size " ").
Proof.
  intros HN HD HL.
  unfold encode_value, decode_value, render_value.
  rewrite (bytes_eqb_neq _ _ HN), (bytes_eqb_neq _ _ HD),
    (bytes_eqb_neq _ _ HL).
  repeat split; reflexivity.
Qed.

Lemma C9_other_types_are_text_witness :
  decode_value (B "X") 0 (B "ab") = Ok (VStr (B "ab"))
  /\ encode_value (B "X") 4 (VInt 7) = encode_value (B "C") 4 (VInt 7)
  /\ render_value (B "X") 4 (VInt 7)
     = Ok (ljust (slice_to (str (VInt 7)) 4) 4 " ").
Proof.
  apply (C9_other_types_are_text (B "X") 4 0 (B "ab") (VInt 7));
    discriminate.
Defined.

(* ================================================================== *)
(** ** White space *)

Lemma lstrip_head (s : bytes) :
  lstrip s = [] \/ exists c r, lstrip s = c :: r /\ isspace c = false.
Proof.
  induction s as [|c s IH]; simpl; [left; reflexivity|].
  destruct (isspace c) eqn:E; [exact IH|].
  right; exists c, s; split; [reflexivity | exact E].
Qed.

Lemma lstrip_nonspace (c : ascii) (r : bytes) :
  isspace c = false -> lstrip (c :: r) = c :: r.
Proof. intros E; simpl; rewrite E; reflexivity. Qed.

Lemma rstrip_nonspace (c : ascii) (r : bytes) :
  isspace c = false -> rstrip (c :: r) = c :: rstrip r.
Proof. intros E; simpl; rewrite E; reflexivity. Qed.

Lemma lstrip_idem (s : bytes) : lstrip (lstrip s) = lstrip s.
Proof.
  destruct (lstrip_head s) as [-> | (c & r & -> & E)];
    [reflexivity | apply lstrip_nonspace, E].
Qed.

Lemma rstrip_idem (s : bytes) : rstrip (rstrip s) = rstrip s.
Proof.
  induction s as [|c s IH]; simpl; [reflexivity|].
  destruct (isspace c && is_empty (rstrip s)) eqn:E; [reflexivity|].
  simpl; rewrite IH, E; reflexivity.
Qed.

Lemma strip_lstrip (s : bytes) : strip (lstrip s) = strip s.
Proof. unfold strip; rewrite lstrip_idem; reflexivity. Qed.

Lemma strip_idem (s : bytes) : strip (strip s) = strip s.
Proof.
  unfold strip.
  destruct (lstrip_head s) as [-> | (c & r & -> & E)]; [reflexivity|].
  rewrite (rstrip_nonspace c r E), (lstrip_nonspace c _ E).
  rewrite (rstrip_nonspace c _ E), rstrip_idem; reflexivity.
Qed.

(** Stripping on the left leaves nothing exactly when stripping on both
    sides does. *)
Lemma lstrip_empty_strip (s : bytes) :
  bytes_eqb (lstrip s) [] = is_empty (strip s).
Proof.
  unfold strip.
  destruct (lstrip_head s) as [-> | (c & r & -> & E)]; [reflexivity|].
  rewrite (rstrip_nonspace c r E); reflexivity.
Qed.

(** [int()] and [Decimal()] strip their argument themselves. *)
Lemma py_int_lstrip (s : bytes) : py_int (lstrip s) = py_int s.
Proof. unfold py_int; rewrite strip_lstrip; reflexivity. Qed.

Lemma py_int_strip (s : bytes) : py_int (strip s) = py_int s.
Proof. unfold py_int; rewrite strip_idem; reflexivity. Qed.

Lemma Decimal_lstrip (s : bytes) : Decimal (lstrip s) = Decimal s.
Proof. unfold Decimal; rewrite strip_lstrip; reflexivity. Qed.

Lemma Decimal_strip (s : bytes) : Decimal (strip s) = Decimal s.
Proof. unfold Decimal; rewrite strip_idem; reflexivity. Qed.

(** C3. A numeric field is decoded as the rule of the specification says:
    NUL bytes removed and white space trimmed, an empty text is the
    integer 0, a text in a field with decimal places is parsed by
    [Decimal], and any other by [int].  The code strips white space on the
    left only; [int] and [Decimal] ignore what is left on the right. *)
Theorem C3_numeric_rule (deci : Z) (raw : bytes) :
  0 <= deci ->
  decode_value (B "N") deci raw = numeric_rule deci raw.
Proof.
  intros Hdeci.
  change (decode_value (B "N") deci raw) with (decode_numeric deci raw).
  unfold decode_numeric, numeric_rule.
  rewrite lstrip_empty_strip.
  destruct (is_empty (strip (replace_nul raw))); [reflexivity|].
  rewrite Decimal_lstrip, Decimal_strip, py_int_lstrip, py_int_strip.
  replace (negb (deci =? 0)) with (0 <? deci); [reflexivity|].
  destruct (Z.eqb_spec deci 0) as [-> | Hne]; simpl; [reflexivity|].
  apply Z.ltb_lt; lia.
Qed.

Lemma C3_numeric_rule_witness :
  decode_value (B "N") 2 (B "  12.50 ") = numeric_rule 2 (B "  12.50 ").
Proof. apply (C3_numeric_rule 2 (B "  12.50 ")); lia. Defined.

Example numeric_trailing_space :
  decode_value (B "N") 0 [" "; "4"; "2"; " "; zero]%char = Ok (VInt 42).
Proof. reflexivity. Qed.

Example numeric_blank : decode_value (B "N") 3 (B "     ") = Ok (VInt 0).
Proof. reflexivity. Qed.

Example numeric_decimal :
  decode_value (B "N") 2 (B "  12.50") =
    Ok (VDecimal (DecFinite false 1250 (-2))).
Proof. reflexivity. Qed.

(* ================================================================== *)
(** ** Reading the file *)

Lemma read_app (n : Z) (data f : bytes) :
  length data = Z.to_nat n -> read n (data ++ f) = (data, f).
Proof.
  intros H; unfold read; rewrite <- H.
  rewrite firstn_app, skipn_app, Nat.sub_diag, firstn_all, skipn_all.
  simpl; rewrite app_nil_r; reflexivity.
Qed.

Lemma firstn_exact (n : nat) (data f : bytes) :
  length data = n -> firstn n (data ++ f) = data.
Proof.
  intros <-; rewrite firstn_app, Nat.sub_diag, firstn_all.
  simpl; apply app_nil_r.
Qed.

Lemma read_split (n : Z) (f data f1 : bytes) :
  read n f = (data, f1) -> f = data ++ f1.
Proof.
  unfold read; intros [= <- <-]; symmetry; apply firstn_skipn.
Qed.

Lemma unpack_le_nonneg (data : bytes) : 0 <= unpack_le data.
Proof.
  induction data as [|c data IH]; cbn [unpack_le]; [lia|].
  pose proof (N2Z.is_nonneg (N_of_ascii c)) as Hc; fold (ord c) in Hc.
  lia.
Qed.

Lemma unpack_header_nonneg (data : bytes) (numrec lenheader : Z) :
  unpack_header data = Ok (numrec, lenheader) -> 0 <= numrec /\ 0 <= lenheader.
Proof.
  unfold unpack_header; destruct (length data =? 32)%nat; intros [= <- <-].
  split; apply unpack_le_nonneg.
Qed.

Lemma unpack_strings_len (sizes : list Z) (data : bytes) (record : list bytes) :
  unpack_strings sizes data = Ok record -> len data = calcsize sizes.
Proof.
  unfold unpack_strings.
  destruct (Z.eqb_spec (len data) (calcsize sizes)); [auto | discriminate].
Qed.

(** The loop over the records yields one row at most for each turn. *)
Lemma read_records_length (fields : list field) (numrec : nat) (f : bytes) :
  (length (fst (read_records fields numrec f)) <= numrec)%nat.
Proof.
  revert f; induction numrec as [|n IH]; intros f; simpl; [lia|].
  destruct (unpack_strings _ _) as [[|flag record]|e]; simpl; [lia| |lia].
  destruct (negb _).
  - specialize (IH (skipn (Z.to_nat (calcsize (map field_size fields))) f)).
    lia.
  - destruct (decode_fields _) as [result|e]; simpl; [|lia].
    specialize (IH (skipn (Z.to_nat (calcsize (map field_size fields))) f)).
    destruct (read_records fields n _) as [rows ending]; simpl in *; lia.
Qed.

Lemma read_records_only_records (fields : list field) (numrec : nat)
  (f : bytes) :
  length (records_yielded (fst (read_records fields numrec f)))
  = length (fst (read_records fields numrec f)).
Proof.
  revert f; induction numrec as [|n IH]; intros f; simpl; [reflexivity|].
  destruct (unpack_strings _ _) as [[|flag record]|e]; simpl;
    [reflexivity| |reflexivity].
  destruct (negb _); [apply IH|].
  destruct (decode_fields _) as [result|e]; simpl; [|reflexivity].
  specialize (IH (skipn (Z.to_nat (calcsize (map field_size fields))) f)).
  destruct (read_records fields n _) as [rows ending]; simpl in *; lia.
Qed.

(** A run of [dbfreader] yields no more records than the header counts. *)
Lemma dbfreader_records_bound (f : bytes) (numrec lenheader : Z) :
  unpack_header (firstn 32 f) = Ok (numrec, lenheader) ->
  Z.of_nat (length (records_yielded (fst (dbfreader f)))) <= numrec.
Proof.
  intros H; pose proof (unpack_header_nonneg _ _ _ H) as [Hn _].
  unfold dbfreader, read; change (Z.to_nat 32) with 32%nat; rewrite H.
  destruct (read_fields _ _) as [[fields f2]|e]; simpl; [|lia].
  destruct (negb _); simpl; [lia|].
  pose proof (read_records_length (DeletionFlag :: fields) (Z.to_nat numrec)
                (skipn 1 f2)) as Hlen.
  pose proof (read_records_only_records (DeletionFlag :: fields)
                (Z.to_nat numrec) (skipn 1 f2)) as Hrec.
  change (skipn (Pos.to_nat 1) f2) with (skipn 1 f2).
  destruct (read_records _ _ _) as [rows ending]; simpl in *; lia.
Qed.

(** The fields of a record that is not deleted, each of the size of its
    field: the record is cut into them and each is decoded by its type. *)
Lemma live_fields_decode (fields : list field)
  (cells : list (bytes * pyval)) :
  Forall2 decodes_to fields cells ->
  len (concat (map fst cells)) = calcsize (map field_size fields)
  /\ split_sizes (map field_size fields) (concat (map fst cells))
     = map fst cells
  /\ decode_fields (combine fields (map fst cells)) = Ok (map snd cells).
Proof.
  induction 1 as [|[[[name typ] size] deci] [s v] fields cells Hd _ IH];
    [repeat split|].
  destruct Hd as (Hname & Hsize & Hv). cbn [fst snd] in Hsize, Hv.
  destruct IH as (IHlen & IHsplit & IHdec).
  assert (Hs : length s = Z.to_nat size) by (unfold len in Hsize; lia).
  cbn [map fst snd concat field_size]. repeat split.
  - unfold len, calcsize in *. cbn [fold_right]. rewrite length_app. lia.
  - cbn [split_sizes]. rewrite (firstn_exact _ _ _ Hs).
    rewrite skipn_app, <- Hs, Nat.sub_diag, skipn_all.
    cbn [skipn app]. rewrite IHsplit. reflexivity.
  - cbn [combine decode_fields]. rewrite (bytes_eqb_neq _ _ Hname), Hv.
    cbn [bind]. rewrite IHdec. reflexivity.
Qed.

(** C5. A record whose first byte is not a space is skipped: its bytes are
    read, all of them, no row is yielded for it and no exception raised,
    and the loop goes on with the next record as if the deleted one had
    not been there.  A record behind it that is not deleted, with fields
    that each fill their size and are decoded to a value, is yielded as
    the row of these values, and the loop goes on behind it.  So a run
    yields no more records than the header declares. *)
Theorem C5_deleted_record_skipped (fields : list field) (numrec : nat)
  (record f : bytes) :
  len record = calcsize (map field_size (DeletionFlag :: fields)) ->
  hd_error record <> Some " "%char ->
  read (calcsize (map field_size (DeletionFlag :: fields))) (record ++ f)
    = (record, f)
  /\ read_records (DeletionFlag :: fields) (S numrec) (record ++ f)
     = read_records (DeletionFlag :: fields) numrec f
  /\ (forall cells rest,
        Forall2 decodes_to fields cells ->
        f = (" "%char :: concat (map fst cells)) ++ rest ->
        read_records (DeletionFlag :: fields) (S (S numrec)) (record ++ f)
        = (Record_ (map snd cells)
             :: fst (read_records (DeletionFlag :: fields) numrec rest),
           snd (read_records (DeletionFlag :: fields) numrec rest)))
  /\ (forall g n lenheader,
        unpack_header (firstn 32 g) = Ok (n, lenheader) ->
        Z.of_nat (length (records_yielded (fst (dbfreader g)))) <= n).
Proof.
  intros Hlen Hflag.
  assert (Hread : read (calcsize (map field_size (DeletionFlag :: fields)))
                    (record ++ f) = (record, f)).
  { apply read_app; unfold len in Hlen; lia. }
  assert (Hskip : forall k,
             read_records (DeletionFlag :: fields) (S k) (record ++ f)
             = read_records (DeletionFlag :: fields) k f).
  { intros k. cbn [read_records]. rewrite Hread.
    unfold unpack_strings; rewrite Hlen, Z.eqb_refl.
    cbn [map field_size DeletionFlag split_sizes].
    change (Z.to_nat 1) with 1%nat.
    replace (bytes_eqb (firstn 1 record) (B " ")) with false; [reflexivity|].
    symmetry; apply bytes_eqb_neq.
    destruct record as [|c record]; [discriminate|].
    cbn; intros [= ->]; apply Hflag; reflexivity. }
  split; [exact Hread|]. split; [apply Hskip|].
  split; [|apply dbfreader_records_bound].
  intros cells rest Hcells ->. rewrite Hskip.
  destruct (live_fields_decode _ _ Hcells) as (Hl & Hsplit & Hdec).
  cbn [read_records].
  change (map field_size (DeletionFlag :: fields))
    with (1 :: map field_size fields).
  change (calcsize (1 :: map field_size fields))
    with (1 + calcsize (map field_size fields)).
  rewrite read_app
    by (unfold len in Hl; cbn [length]; lia).
  unfold unpack_strings.
  replace (len (" "%char :: concat (map fst cells)) =? _) with true
    by (symmetry; apply Z.eqb_eq; unfold len, calcsize in *;
        cbn [length fold_right]; lia).
  change (split_sizes (1 :: map field_size fields)
            (" "%char :: concat (map fst cells)))
    with ([" "%char]
            :: split_sizes (map field_size fields) (concat (map fst cells))).
  rewrite Hsplit.
  change (negb (bytes_eqb [" "%char] (B " "))) with false.
  change (decode_fields (combine (DeletionFlag :: fields)
            ([" "%char] :: map fst cells)))
    with (decode_fields (combine fields (map fst cells))).
  rewrite Hdec.
  destruct (read_records _ numrec rest); reflexivity.
Qed.

Lemma C5_deleted_record_skipped_witness :
  read (calcsize (map field_size
                    [DeletionFlag; (B "Name", B "C", 2, 0);
                     (B "Age", B "N", 3, 0)]))
       (B "*zz025" ++ B " ab 30" ++ B "*yy111")
  = (B "*zz025", B " ab 30" ++ B "*yy111")
  /\ read_records [DeletionFlag; (B "Name", B "C", 2, 0);
                   (B "Age", B "N", 3, 0)] 3
       (B "*zz025" ++ B " ab 30" ++ B "*yy111")
     = ([Record_ [VStr (B "ab"); VInt 30]], Ok []).
Proof.
  destruct (C5_deleted_record_skipped
              [(B "Name", B "C", 2, 0); (B "Age", B "N", 3, 0)] 1
              (B "*zz025") (B " ab 30" ++ B "*yy111"))
    as (Hread & _ & Hnext & _); [reflexivity | discriminate |].
  split; [exact Hread|].
  apply (Hnext [(B "ab", VStr (B "ab")); (B " 30", VInt 30)] (B "*yy111")).
  - repeat constructor; discriminate.
  - reflexivity.
Defined.

Example deleted_then_live :
  read_records [DeletionFlag; (B "Age", B "N", 3, 0)] 2 (B "*025 030")
  = ([Record_ [VInt 30]], Ok []).
Proof. reflexivity. Qed.

(* ================================================================== *)
(** ** What a run reads of the file *)

Lemma unpack_header_length (data : bytes) (r : Z * Z) :
  unpack_header data = Ok r -> length data = 32%nat.
Proof.
  unfold unpack_header.
  destruct (Nat.eqb_spec (length data) 32); [auto | discriminate].
Qed.

Lemma unpack_field_length (data : bytes) (r : bytes * bytes * Z * Z) :
  unpack_field data = Ok r -> length data = 32%nat.
Proof.
  unfold unpack_field.
  destruct (Nat.eqb_spec (length data) 32); [auto | discriminate].
Qed.

(** The loop over the field descriptors reads 32 bytes for each and looks
    at nothing behind them. *)
Lemma read_fields_prefix (n : nat) (f f2 : bytes) (fields : list field) :
  read_fields n f = Ok (fields, f2) ->
  exists consumed,
    f = consumed ++ f2
    /\ length consumed = (32 * n)%nat
    /\ length fields = n
    /\ forall t, read_fields n (consumed ++ t) = Ok (fields, t).
Proof.
  revert f f2 fields; induction n as [|n IH]; intros f f2 fields H.
  - injection H as <- <-. exists []; repeat split; reflexivity.
  - cbn [read_fields] in H.
    destruct (read 32 f) as [data f1] eqn:Hread.
    destruct (unpack_field data) as [[[[name typ] size] deci]|e] eqn:Hu;
      [|discriminate].
    cbn [bind] in H.
    destruct (read_fields n f1) as [[fields' f2']|e] eqn:Hrest;
      [|discriminate].
    cbn [bind] in H. injection H as <- <-.
    destruct (IH _ _ _ Hrest) as (c & -> & Hc & Hlen & Hany).
    pose proof (unpack_field_length _ _ Hu) as Hdata.
    apply read_split in Hread.
    exists (data ++ c); repeat split.
    + rewrite Hread, app_assoc; reflexivity.
    + rewrite length_app, Hdata, Hc; lia.
    + cbn [length]; rewrite Hlen; reflexivity.
    + intros t. cbn [read_fields].
      rewrite <- app_assoc, (read_app 32 data) by exact Hdata.
      rewrite Hu; cbn [bind]. rewrite Hany; reflexivity.
Qed.

(** The loop over the records reads [calcsize fmt] bytes for each turn and
    looks at nothing behind them. *)
Lemma read_records_prefix (fields : list field) (n : nat) (f rest : bytes)
  (rows : list row) :
  read_records fields n f = (rows, Ok rest) ->
  exists consumed,
    f = consumed ++ rest
    /\ len consumed = Z.of_nat n * calcsize (map field_size fields)
    /\ forall t, read_records fields n (consumed ++ t) = (rows, Ok t).
Proof.
  revert f rest rows; induction n as [|n IH]; intros f rest rows H.
  - injection H as <- <-. exists []; repeat split; reflexivity.
  - cbn [read_records] in H.
    destruct (read (calcsize (map field_size fields)) f) as [data f1] eqn:Hread.
    destruct (unpack_strings (map field_size fields) data)
      as [[|flag record]|e] eqn:Hu; [discriminate| |discriminate].
    pose proof (unpack_strings_len _ _ _ Hu) as Hdata.
    apply read_split in Hread.
    assert (Hgo : forall c, f1 = c ++ rest ->
              len c = Z.of_nat n * calcsize (map field_size fields) ->
              f = (data ++ c) ++ rest
              /\ len (data ++ c)
                 = Z.of_nat (S n) * calcsize (map field_size fields)).
    { intros c -> Hc; split.
      - rewrite Hread, app_assoc; reflexivity.
      - unfold len in *; rewrite length_app; lia. }
    assert (Hrd : forall c t,
              read (calcsize (map field_size fields)) ((data ++ c) ++ t)
              = (data, c ++ t)).
    { intros c t; rewrite <- app_assoc; apply read_app.
      unfold len in Hdata; lia. }
    destruct (negb (bytes_eqb flag (B " "))) eqn:Hdel.
    + destruct (IH _ _ _ H) as (c & Hf1 & Hc & Hany).
      destruct (Hgo c Hf1 Hc) as [Hf Hl].
      exists (data ++ c); repeat split; [exact Hf | exact Hl |].
      intros t; cbn [read_records].
      rewrite Hrd, Hu, Hdel; apply Hany.
    + destruct (decode_fields (combine fields (flag :: record)))
        as [result|e] eqn:Hdec; [|discriminate].
      destruct (read_records fields n f1) as [rows' ending] eqn:Hrest.
      injection H as <- ->.
      destruct (IH _ _ _ Hrest) as (c & Hf1 & Hc & Hany).
      destruct (Hgo c Hf1 Hc) as [Hf Hl].
      exists (data ++ c); repeat split; [exact Hf | exact Hl |].
      intros t; cbn [read_records].
      rewrite Hrd, Hu, Hdel, Hdec, Hany; reflexivity.
Qed.

Lemma field_sizes_of_specs (fields : list field) :
  map spec_size (map field_spec fields) = map field_size fields.
Proof.
  induction fields as [|[[[name typ] size] deci] fields IH];
    cbn; [|rewrite IH]; reflexivity.
Qed.

(** C10. A run that ends normally has read the header, the field
    descriptors, the terminator and as many record blocks as the header
    counts, and nothing more: the end-of-file byte is not read.  What
    follows the last record, be it nothing at all or any bytes, changes
    neither the rows yielded nor the normal end. *)
Theorem C10_trailing_bytes_ignored (f rest : bytes) (rows : list row) :
  dbfreader f = (rows, Ok rest) ->
  exists consumed numrec lenheader names specs,
    f = consumed ++ rest
    /\ unpack_header (firstn 32 f) = Ok (numrec, lenheader)
    /\ firstn 2 rows = [Names names; Specs specs]
    /\ len consumed
       = 33 + 32 * Z.of_nat (length specs)
         + numrec * (1 + fold_right Z.add 0 (map spec_size specs))
    /\ forall t, dbfreader (consumed ++ t) = (rows, Ok t).
Proof.
  intros H. unfold dbfreader in H.
  destruct (read 32 f) as [data f1] eqn:Hread.
  destruct (unpack_header data) as [[numrec lenheader]|e] eqn:Hh;
    [|discriminate].
  destruct (read_fields _ f1) as [[fields f2]|e] eqn:Hf; [|discriminate].
  destruct (read 1 f2) as [terminator f3] eqn:Hterm.
  destruct (bytes_eqb terminator [chr 13]) eqn:Hcr; [|discriminate].
  cbn [negb] in H.
  destruct (read_records _ _ f3) as [rows' ending] eqn:Hrec.
  injection H as <- ->.
  apply bytes_eqb_eq in Hcr; subst terminator.
  pose proof (unpack_header_length _ _ Hh) as Hdata.
  pose proof (unpack_header_nonneg _ _ _ Hh) as [Hnumrec _].
  destruct (read_fields_prefix _ _ _ _ Hf) as (cf & Hf1 & Hcf & Hnf & Hfany).
  destruct (read_records_prefix _ _ _ _ _ Hrec) as (cr & Hf3 & Hcr & Hrany).
  apply read_split in Hread, Hterm. subst f f1 f2 f3.
  exists (data ++ cf ++ [chr 13] ++ cr), numrec, lenheader,
    (map field_name fields), (map field_spec fields).
  split; [repeat rewrite <- app_assoc; reflexivity|].
  split; [rewrite (firstn_exact 32 data) by exact Hdata; exact Hh|].
  split; [reflexivity|].
  split.
  - unfold len in *; repeat rewrite length_app.
    rewrite length_map, field_sizes_of_specs, Hdata, Hcf, Hnf.
    cbn [map field_size DeletionFlag calcsize fold_right length] in Hcr |- *.
    fold (calcsize (map field_size fields)) in Hcr.
    unfold calcsize in Hcr. rewrite Z2Nat.id in Hcr by exact Hnumrec.
    rewrite !Nat2Z.inj_add, Nat2Z.inj_mul, Hcr; lia.
  - intros t. unfold dbfreader.
    repeat rewrite <- app_assoc.
    rewrite (read_app 32 data) by exact Hdata.
    rewrite Hh, Hfany.
    rewrite (read_app 1 [chr 13]) by reflexivity.
    rewrite bytes_eqb_refl; cbn [negb].
    rewrite Hrany; reflexivity.
Qed.

Lemma C10_trailing_bytes_ignored_witness :
  exists consumed numrec lenheader names specs,
    B "0123" ++ chr 1 :: pad 3 ++ chr 65 :: pad 23
      ++ B "Age" ++ pad 8 ++ B "N" ++ pad 4 ++ chr 3 :: pad 15
      ++ chr 13 :: B " 030" ++ B "trailing"
    = consumed ++ B "trailing"
    /\ unpack_header
         (firstn 32
            (B "0123" ++ chr 1 :: pad 3 ++ chr 65 :: pad 23
               ++ B "Age" ++ pad 8 ++ B "N" ++ pad 4 ++ chr 3 :: pad 15
               ++ chr 13 :: B " 030" ++ B "trailing"))
       = Ok (numrec, lenheader)
    /\ firstn 2 [Names [B "Age"]; Specs [(B "N", 3, 0)]; Record_ [VInt 30]]
       = [Names names; Specs specs]
    /\ len consumed
       = 33 + 32 * Z.of_nat (length specs)
         + numrec * (1 + fold_right Z.add 0 (map spec_size specs))
    /\ forall t, dbfreader (consumed ++ t)
                 = ([Names [B "Age"]; Specs [(B "N", 3, 0)];
                     Record_ [VInt 30]], Ok t).
Proof.
  apply (C10_trailing_bytes_ignored
           (B "0123" ++ chr 1 :: pad 3 ++ chr 65 :: pad 23
              ++ B "Age" ++ pad 8 ++ B "N" ++ pad 4 ++ chr 3 :: pad 15
              ++ chr 13 :: B " 030" ++ B "trailing")
           (B "trailing")
           [Names [B "Age"]; Specs [(B "N", 3, 0)]; Record_ [VInt 30]]).
  vm_compute; reflexivity.
Defined.

(* ================================================================== *)
(** ** The header *)

(** Where the file holds them, the descriptors are read without an
    exception, whatever their bytes. *)
Lemma read_fields_total (n : nat) (f : bytes) :
  (32 * n <= length f)%nat ->
  exists fields f2, read_fields n f = Ok (fields, f2) /\ length fields = n.
Proof.
  revert f; induction n as [|n IH]; intros f Hlen.
  - exists [], f; split; reflexivity.
  - cbn [read_fields]. unfold read; change (Z.to_nat 32) with 32%nat.
    assert (Hd : length (firstn 32 f) = 32%nat)
      by (apply firstn_length_le; lia).
    unfold unpack_field; rewrite Hd; cbn [Nat.eqb bind].
    destruct (IH (skipn 32 f)) as (fields & f2 & -> & Hn);
      [rewrite length_skipn; lia|].
    cbn [bind]; eexists _, f2; split; [reflexivity|].
    cbn [length]; rewrite Hn; reflexivity.
Qed.

(** C2, counterexample. A header length of 34 gives a field count that is not whole, a header
    length of 0 one that is negative; the reader raises nothing for
    either and goes on with no field at all. *)
Lemma C2_no_header_check_counterexample :
  unpack_header (pad 8 ++ chr 34 :: pad 23) = Ok (0, 34)
  /\ (34 - 33) mod 32 <> 0
  /\ dbfreader ((pad 8 ++ chr 34 :: pad 23) ++ [chr 13])
     = ([Names []; Specs []], Ok [])
  /\ unpack_header (pad 32) = Ok (0, 0)
  /\ (0 - 33) / 32 < 0
  /\ dbfreader (pad 32 ++ [chr 13]) = ([Names []; Specs []], Ok []).
Proof.
  repeat split; try reflexivity. discriminate.
Qed.

(** C2, amended. The field count is the floor of
    [(lenheader - 33) / 32], and a negative one counts as none.  A header
    length for which the division is not exact or gives a negative number
    raises no exception: where the file holds that many descriptors, the
    reader reads that many, yields that many field names and field specs,
    and goes on as for any header length.  When the byte behind the
    descriptors is the carriage return, the run is then that of the record
    loop on what follows, and it ends without an exception when the header
    counts no record; when it is not, the two rows are followed by the
    [AssertionError] of the terminator. *)
Theorem C2_field_count_floor (f : bytes) (numrec lenheader : Z) :
  unpack_header (firstn 32 f) = Ok (numrec, lenheader) ->
  (32 + 32 * Z.to_nat ((lenheader - 33) / 32) <= length f)%nat ->
  exists fields,
    length fields = Z.to_nat ((lenheader - 33) / 32)
    /\ read_fields (Z.to_nat ((lenheader - 33) / 32)) (skipn 32 f)
       = Ok (fields, skipn (32 + 32 * Z.to_nat ((lenheader - 33) / 32)) f)
    /\ dbfreader f
       = (if bytes_eqb
               (firstn 1 (skipn (32 + 32 * Z.to_nat ((lenheader - 33) / 32)) f))
               [chr 13]
          then
            (Names (map field_name fields)
               :: Specs (map field_spec fields)
               :: fst (read_records (DeletionFlag :: fields) (Z.to_nat numrec)
                         (skipn (33 + 32 * Z.to_nat ((lenheader - 33) / 32))
                            f)),
             snd (read_records (DeletionFlag :: fields) (Z.to_nat numrec)
                    (skipn (33 + 32 * Z.to_nat ((lenheader - 33) / 32)) f)))
          else
            ([Names (map field_name fields); Specs (map field_spec fields)],
             Raise AssertionError))
    /\ (firstn 1 (skipn (32 + 32 * Z.to_nat ((lenheader - 33) / 32)) f)
        = [chr 13] ->
        numrec = 0 ->
        dbfreader f
        = ([Names (map field_name fields); Specs (map field_spec fields)],
           Ok (skipn (33 + 32 * Z.to_nat ((lenheader - 33) / 32)) f))).
Proof.
  intros Hh Hlen.
  set (n := Z.to_nat ((lenheader - 33) / 32)) in *.
  destruct (read_fields_total n (skipn 32 f))
    as (fields & f2 & Hf & Hn); [rewrite length_skipn; lia|].
  assert (Hrest : f2 = skipn (32 + 32 * n) f).
  { destruct (read_fields_prefix _ _ _ _ Hf) as (c & Hc & Hcl & _ & _).
    rewrite (Nat.add_comm 32), <- skipn_skipn, Hc.
    rewrite skipn_app, Hcl, Nat.sub_diag, skipn_all2 by lia. reflexivity. }
  assert (Hrun : dbfreader f
                 = (if bytes_eqb (firstn 1 f2) [chr 13]
                    then
                      (Names (map field_name fields)
                         :: Specs (map field_spec fields)
                         :: fst (read_records (DeletionFlag :: fields)
                                   (Z.to_nat numrec) (skipn 1 f2)),
                       snd (read_records (DeletionFlag :: fields)
                              (Z.to_nat numrec) (skipn 1 f2)))
                    else
                      ([Names (map field_name fields);
                        Specs (map field_spec fields)],
                       Raise AssertionError))).
  { unfold dbfreader, read; change (Z.to_nat 32) with 32%nat.
    rewrite Hh. fold n. rewrite Hf. change (Z.to_nat 1) with 1%nat.
    destruct (bytes_eqb (firstn 1 f2) [chr 13]); cbn [negb];
      [|reflexivity].
    destruct (read_records _ _ _) as [rows ending]. reflexivity. }
  assert (Hskip : skipn 1 f2 = skipn (33 + 32 * n) f)
    by (rewrite Hrest, skipn_skipn; reflexivity).
  rewrite Hskip in Hrun. rewrite Hrest in Hrun, Hf.
  exists fields. split; [exact Hn|]. split; [exact Hf|].
  split; [exact Hrun|].
  intros Hcr ->. rewrite Hrun, Hcr. reflexivity.
Qed.

Lemma C2_field_count_floor_witness :
  exists fields,
    length fields = Z.to_nat ((70 - 33) / 32)
    /\ read_fields (Z.to_nat ((70 - 33) / 32))
         (skipn 32 (pad 8 ++ chr 70 :: pad 23
                      ++ B "A" ++ pad 10 ++ B "C" ++ pad 4 ++ chr 2 :: pad 15
                      ++ chr 13 :: B "tail"))
       = Ok (fields,
             skipn (32 + 32 * Z.to_nat ((70 - 33) / 32))
               (pad 8 ++ chr 70 :: pad 23
                  ++ B "A" ++ pad 10 ++ B "C" ++ pad 4 ++ chr 2 :: pad 15
                  ++ chr 13 :: B "tail"))
    /\ dbfreader (pad 8 ++ chr 70 :: pad 23
                    ++ B "A" ++ pad 10 ++ B "C" ++ pad 4 ++ chr 2 :: pad 15
                    ++ chr 13 :: B "tail")
       = ([Names (map field_name fields); Specs (map field_spec fields)],
          Ok (skipn (33 + 32 * Z.to_nat ((70 - 33) / 32))
                (pad 8 ++ chr 70 :: pad 23
                   ++ B "A" ++ pad 10 ++ B "C" ++ pad 4 ++ chr 2 :: pad 15
                   ++ chr 13 :: B "tail"))).
Proof.
  destruct (C2_field_count_floor
              (pad 8 ++ chr 70 :: pad 23
                 ++ B "A" ++ pad 10 ++ B "C" ++ pad 4 ++ chr 2 :: pad 15
                 ++ chr 13 :: B "tail") 0 70)
    as (fields & Hn & Hf & _ & Hok);
    [reflexivity | vm_compute; lia |].
  exists fields. split; [exact Hn|]. split; [exact Hf|].
  apply Hok; reflexivity.
Defined.

(* ================================================================== *)
(** ** Writing: stretches of output *)


Lemma and_then_assoc (a b c : written) :
  and_then (and_then a b) c = and_then a (and_then b c).
Proof.
  destruct a as [oa [ea|]], b as [ob [eb|]], c as [oc ec]; cbn;
    rewrite ?app_assoc; reflexivity.
Qed.

Lemma and_then_nil_l (b : written) : and_then (emit []) b = b.
Proof. destruct b; reflexivity. Qed.

Lemma and_then_ok (a b : written) (o : bytes) :
  and_then a b = (o, None) ->
  exists oa ob, a = (oa, None) /\ b = (ob, None) /\ o = oa ++ ob.
Proof.
  destruct a as [oa [ea|]], b as [ob [eb|]]; cbn; intros [= <-].
  exists oa, ob; repeat split.
Qed.

Lemma and_then_failed_l (a b : written) : failed a -> failed (and_then a b).
Proof.
  destruct a as [oa [ea|]], b as [ob eb]; unfold failed; cbn;
    [discriminate | contradiction].
Qed.

Lemma and_then_failed_r (a b : written) : failed b -> failed (and_then a b).
Proof.
  destruct a as [oa [ea|]], b as [ob [eb|]]; unfold failed; cbn;
    (discriminate || contradiction).
Qed.

Lemma write_fields_app (l1 l2 : list (fieldspec * pyval)) :
  write_fields (l1 ++ l2) = and_then (write_fields l1) (write_fields l2).
Proof.
  induction l1 as [|[[[typ size] deci] v] l1 IH]; cbn [write_fields app].
  - symmetry; apply and_then_nil_l.
  - destruct (encode_value typ size v) as [s|e]; [|reflexivity].
    rewrite IH, and_then_assoc; reflexivity.
Qed.

Lemma write_records_app (specs : list fieldspec)
  (rs1 rs2 : list (list pyval)) :
  write_records specs (rs1 ++ rs2)
  = and_then (write_records specs rs1) (write_records specs rs2).
Proof.
  induction rs1 as [|r rs1 IH]; cbn [write_records app].
  - symmetry; apply and_then_nil_l.
  - rewrite IH, and_then_assoc; reflexivity.
Qed.

Lemma encode_value_len (typ : bytes) (size : Z) (v : pyval) (s : bytes) :
  encode_value typ size v = Ok s -> len s = size.
Proof.
  unfold encode_value.
  destruct (render_value typ size v) as [r|e]; cbn [bind]; [|discriminate].
  destruct (Z.eqb_spec (len r) size); intros [= <-]; assumption.
Qed.

(* ================================================================== *)
(** ** Writing: the width of a field *)

(** C6. A value whose rendering is not as long as the size of its field
    stops the writer at [assert len(value) == size]: the field raises
    [AssertionError], the loop over the fields ends there with nothing
    written for this field, and the call of [dbfwriter] ends with an
    exception. *)
Theorem C6_width_mismatch_raises (typ : bytes) (size deci : Z) (v : pyval)
  (s : bytes) (pre post : list (fieldspec * pyval)) :
  render_value typ size v = Ok s ->
  len s <> size ->
  encode_value typ size v = Raise AssertionError
  /\ (forall o, write_fields pre = (o, None) ->
        write_fields (pre ++ ((typ, size, deci), v) :: post)
        = (o, Some AssertionError))
  /\ (forall now names specs before record after numrec,
        combine specs record = pre ++ ((typ, size, deci), v) :: post ->
        failed (dbfwriter now names specs (before ++ record :: after)
                  numrec)).
Proof.
  intros Hr Hlen.
  assert (He : encode_value typ size v = Raise AssertionError).
  { unfold encode_value; rewrite Hr; cbn [bind].
    destruct (Z.eqb_spec (len s) size); [contradiction | reflexivity]. }
  assert (Hf : forall l, failed (write_fields
                                   (l ++ ((typ, size, deci), v) :: post))).
  { intros l; rewrite write_fields_app; apply and_then_failed_r.
    cbn [write_fields]; rewrite He; discriminate. }
  split; [exact He|]. split.
  - intros o Hpre. rewrite write_fields_app, Hpre.
    cbn [write_fields]; rewrite He; cbn. rewrite app_nil_r; reflexivity.
  - intros [[year month] day_] names specs before record after numrec Hzip.
    unfold dbfwriter.
    destruct (pack_header _ _ _ _ _ _ _) as [hdr|e]; [|discriminate].
    do 3 apply and_then_failed_r. apply and_then_failed_l.
    rewrite write_records_app; apply and_then_failed_r.
    cbn [write_records]; apply and_then_failed_l.
    unfold write_record; apply and_then_failed_r.
    rewrite Hzip; apply Hf.
Qed.

Lemma C6_width_mismatch_raises_witness :
  encode_value (B "N") 3 (VInt 12345) = Raise AssertionError
  /\ (forall o, write_fields [((B "C", 2, 0), VStr (B "ab"))] = (o, None) ->
        write_fields ([((B "C", 2, 0), VStr (B "ab"))]
                        ++ ((B "N", 3, 0), VInt 12345) :: [])
        = (o, Some AssertionError))
  /\ (forall now names specs before record after numrec,
        combine specs record
        = [((B "C", 2, 0), VStr (B "ab"))]
            ++ ((B "N", 3, 0), VInt 12345) :: [] ->
        failed (dbfwriter now names specs (before ++ record :: after)
                  numrec)).
Proof.
  apply (C6_width_mismatch_raises (B "N") 3 0 (VInt 12345) (B "12345")
           [((B "C", 2, 0), VStr (B "ab"))] []);
    [reflexivity | discriminate].
Defined.

(** The file is left with the header, the flag of the record and the
    fields before the one that does not fit. *)
Example width_mismatch_file :
  let w := dbfwriter (2008, 3, 14) [B "Name"; B "Age"]
             [(B "C", 2, 0); (B "N", 3, 0)]
             [[VStr (B "ab"); VInt 12345]] None in
  snd w = Some AssertionError /\ skipn 97 (fst w) = B " ab".
Proof. split; vm_compute; reflexivity. Qed.

(** A number whose text is wider than the field. *)
Lemma numeric_too_wide_raises (size : Z) (v : pyval) :
  size < len (str v) ->
  encode_value (B "N") size v = Raise AssertionError.
Proof.
  intros H. unfold encode_value.
  change (render_value (B "N") size v) with (Ok (rjust (str v) size " ")).
  cbn [bind]. unfold rjust.
  replace (Z.to_nat (size - len (str v))) with 0%nat by lia.
  cbn [repeat app].
  destruct (Z.eqb_spec (len (str v)) size); [lia | reflexivity].
Qed.


Lemma all_from_spec (P : Z -> bool) (n : nat) :
  forall lo, all_from P lo n = true ->
  forall z, lo <= z < lo + Z.of_nat n -> P z = true.
Proof.
  induction n as [|n IH]; intros lo H z Hz; [lia|].
  cbn [all_from] in H; apply andb_true_iff in H as [H0 H1].
  destruct (Z.eq_dec z lo) as [->|Hne]; [exact H0|].
  apply (IH (lo + 1) H1); lia.
Qed.

(** [strftime('%Y%m%d')] gives eight characters. *)
Lemma strftime_Ymd_len (y m d : Z) :
  1900 <= y <= 9999 -> 1 <= m <= 12 -> 1 <= d <= 31 ->
  exists s, strftime_Ymd (VDate y m d) = Ok s /\ len s = 8.
Proof.
  intros Hy Hm Hd. cbn [strftime_Ymd].
  replace (y <? 1900) with false by (symmetry; apply Z.ltb_ge; lia).
  eexists; split; [reflexivity|].
  assert (H4 : (len (zpad 4 y) =? 4) = true).
  { apply (all_from_spec (fun z => len (zpad 4 z) =? 4) (Z.to_nat 8100) 1900);
      [vm_compute; reflexivity | rewrite Z2Nat.id; lia]. }
  assert (H2 : forall z, 1 <= z <= 31 -> (len (zpad 2 z) =? 2) = true).
  { intros z Hz.
    apply (all_from_spec (fun z => len (zpad 2 z) =? 2) 31 1);
      [vm_compute; reflexivity | lia]. }
  apply Z.eqb_eq in H4.
  pose proof (H2 m ltac:(lia)) as Hm2; apply Z.eqb_eq in Hm2.
  pose proof (H2 d Hd) as Hd2; apply Z.eqb_eq in Hd2.
  unfold len in *; rewrite !length_app; lia.
Qed.

(** A date in a field whose size is not 8. *)
Lemma date_wrong_size_raises (size y m d : Z) :
  1900 <= y <= 9999 -> 1 <= m <= 12 -> 1 <= d <= 31 ->
  size <> 8 ->
  encode_value (B "D") size (VDate y m d) = Raise AssertionError.
Proof.
  intros Hy Hm Hd Hsize.
  destruct (strftime_Ymd_len y m d Hy Hm Hd) as (s & Hs & Hlen).
  unfold encode_value.
  change (render_value (B "D") size (VDate y m d))
    with (strftime_Ymd (VDate y m d)).
  rewrite Hs; cbn [bind].
  destruct (Z.eqb_spec (len s) size); [lia | reflexivity].
Qed.

(* ================================================================== *)
(** ** Writing: the lengths in the header *)

Lemma unpack_pack_le2 (v : Z) :
  0 <= v < 65536 -> unpack_le (pack_le 2 v) = v.
Proof.
  intros Hv. cbn [pack_le unpack_le].
  rewrite !ord_chr by (apply Z.mod_pos_bound; lia).
  Z.div_mod_to_equations; lia.
Qed.

Lemma header_slices_8_10 (b0 b1 b2 b3 n lh lr : Z) (o : bytes) :
  slice ((pack_le 1 b0 ++ pack_le 1 b1 ++ pack_le 1 b2 ++ pack_le 1 b3
            ++ pack_le 4 n ++ pack_le 2 lh ++ pack_le 2 lr ++ pad 20) ++ o)
        8 10
  = pack_le 2 lh.
Proof. reflexivity. Qed.

Lemma header_slices_10_12 (b0 b1 b2 b3 n lh lr : Z) (o : bytes) :
  slice ((pack_le 1 b0 ++ pack_le 1 b1 ++ pack_le 1 b2 ++ pack_le 1 b3
            ++ pack_le 4 n ++ pack_le 2 lh ++ pack_le 2 lr ++ pad 20) ++ o)
        10 12
  = pack_le 2 lr.
Proof. reflexivity. Qed.

Lemma pack_header_inv (ver yr mon day_ numrec lenheader lenrecord : Z)
  (hdr : bytes) :
  pack_header ver yr mon day_ numrec lenheader lenrecord = Ok hdr ->
  0 <= lenheader < 65536 /\ 0 <= lenrecord < 65536
  /\ hdr = pack_le 1 ver ++ pack_le 1 yr ++ pack_le 1 mon ++ pack_le 1 day_
           ++ pack_le 4 numrec ++ pack_le 2 lenheader
           ++ pack_le 2 lenrecord ++ pad 20.
Proof.
  unfold pack_header.
  destruct (pack_uint 1 ver) as [b0|] eqn:H0; [|discriminate].
  destruct (pack_uint 1 yr) as [b1|] eqn:H1; [|discriminate].
  destruct (pack_uint 1 mon) as [b2|] eqn:H2; [|discriminate].
  destruct (pack_uint 1 day_) as [b3|] eqn:H3; [|discriminate].
  destruct (pack_uint 4 numrec) as [b4|] eqn:H4; [|discriminate].
  destruct (pack_uint 2 lenheader) as [b8|] eqn:H8; [|discriminate].
  destruct (pack_uint 2 lenrecord) as [b10|] eqn:H10; [|discriminate].
  cbn [bind]; intros [= <-].
  apply pack_uint_inv in H0 as [_ ->], H1 as [_ ->], H2 as [_ ->],
    H3 as [_ ->], H4 as [_ ->], H8 as [Hh ->], H10 as [Hr ->].
  repeat split; (reflexivity || (change (256 ^ Z.of_nat 2) with 65536 in *; lia)).
Qed.

Lemma combine_fst {A C : Type} (l : list A) (l' : list C) :
  (length l <= length l')%nat -> map fst (combine l l') = l.
Proof.
  revert l'; induction l as [|a l IH]; intros [|c l'] H; cbn in *;
    try reflexivity; try lia.
  rewrite IH by lia; reflexivity.
Qed.

(** The loop over the fields of a record, when no exception stops it,
    writes for each pair the size of its field. *)
Lemma write_fields_len (l : list (fieldspec * pyval)) (o : bytes) :
  write_fields l = (o, None) ->
  len o = fold_right Z.add 0 (map spec_size (map fst l)).
Proof.
  revert o; induction l as [|[[[typ size] deci] v] l IH]; intros o H.
  - injection H as <-; reflexivity.
  - cbn [write_fields] in H.
    destruct (encode_value typ size v) as [s|e] eqn:He; [|discriminate].
    apply and_then_ok in H as (oa & ob & [= <-] & Hb & ->).
    apply encode_value_len in He. specialize (IH _ Hb).
    cbn [map fst spec_size fold_right].
    unfold len in *; rewrite length_app; lia.
Qed.

(** C8, counterexample. A record with fewer values than there are fields
    is written short:
    [izip] stops at the shorter of its arguments.  The header says 3 bytes
    a record, the record written has 1. *)
Lemma C8_short_record_counterexample :
  write_record [(B "C", 2, 0)] [] = (B " ", None)
  /\ len (B " ") <> 1 + fold_right Z.add 0 (map spec_size [(B "C", 2, 0)])
  /\ (let w := dbfwriter (2008, 3, 14) [B "a"] [(B "C", 2, 0)] [[]] None in
      snd w = None
      /\ unpack_le (slice (fst w) 10 12) = 3
      /\ skipn 65 (fst w) = B " " ++ [chr 26]).
Proof.
  split; [reflexivity|]. split; [discriminate|].
  repeat split; vm_compute; reflexivity.
Qed.

(** C8, amended. Whatever [dbfwriter] writes starts with a header whose
    header length is 33 + 32 times the number of field specs and whose
    record length is 1 + the sum of their sizes, both computed from the
    field specs.  A record that has a value for every field spec, when it
    is written without an exception, takes exactly that record length: the
    flag and a slice of its size for every field. *)
Theorem C8_header_and_record_lengths (now : Z * Z * Z) (names : list bytes)
  (specs : list fieldspec) (records : list (list pyval)) (numrec : option Z)
  (file : bytes) (e : option exn) :
  dbfwriter now names specs records numrec = (file, e) ->
  file <> [] ->
  unpack_le (slice file 8 10) = 33 + 32 * Z.of_nat (length specs)
  /\ unpack_le (slice file 10 12)
     = 1 + fold_right Z.add 0 (map spec_size specs)
  /\ (forall record o,
        (length specs <= length record)%nat ->
        write_record specs record = (o, None) ->
        len o = unpack_le (slice file 10 12)).
Proof.
  destruct now as [[year month] day_]. unfold dbfwriter. intros H Hfile.
  destruct (pack_header _ _ _ _ _ _ _) as [hdr|e'] eqn:Hh;
    [|injection H as <- _; contradiction].
  apply pack_header_inv in Hh as (Hlh & Hlr & Hhdr).
  destruct (and_then (write_specs _) _) as [o1 e1].
  cbn [and_then emit] in H. injection H as <- _.
  rewrite Hhdr, !header_slices_8_10, !header_slices_10_12.
  rewrite !unpack_pack_le2 by assumption.
  split; [lia|]. split; [lia|].
  intros record o Hlen Hw. unfold write_record in Hw.
  apply and_then_ok in Hw as (oa & ob & [= <-] & Hb & ->).
  apply write_fields_len in Hb. rewrite combine_fst in Hb by exact Hlen.
  unfold len in *; rewrite length_app; cbn [length B list_ascii_of_string].
  lia.
Qed.

Lemma C8_header_and_record_lengths_witness :
  exists file,
    unpack_le (slice file 8 10) = 33 + 32 * Z.of_nat (length example_specs)
    /\ unpack_le (slice file 10 12)
       = 1 + fold_right Z.add 0 (map spec_size example_specs)
    /\ (forall record o,
          (length example_specs <= length record)%nat ->
          write_record example_specs record = (o, None) ->
          len o = unpack_le (slice file 10 12)).
Proof.
  exists (fst (dbfwriter (2008, 3, 14) example_names example_specs
                 [example_record] None)).
  apply (C8_header_and_record_lengths (2008, 3, 14) example_names
           example_specs [example_record] None _ None);
    [vm_compute; reflexivity | vm_compute; discriminate].
Defined.

(* ================================================================== *)
(** ** Integers as text and back *)

Lemma uint_chars_acc (d : Decimal.uint) :
  forall acc : positive,
    fold_left digit_step (uint_chars d) (Z.pos acc)
    = Z.pos (Pos.of_uint_acc d acc).
Proof.
  induction d; intros acc; try reflexivity;
    (cbn [uint_chars NilEmpty.string_of_uint list_ascii_of_string fold_left
          Pos.of_uint_acc];
     fold (uint_chars d); rewrite <- IHd; f_equal;
     unfold digit_step, digit_value; cbn [ord N_of_ascii]; vm_compute ord;
     lia).
Qed.

Lemma uint_chars_value (d : Decimal.uint) :
  digits_value (uint_chars d) = Z.of_N (Pos.of_uint d).
Proof.
  unfold digits_value. change (fun acc c => 10 * acc + digit_value c)
    with digit_step.
  induction d; try reflexivity;
    cbn [uint_chars NilEmpty.string_of_uint list_ascii_of_string fold_left
         Pos.of_uint]; fold (uint_chars d);
    [exact IHd | ..]; cbn [Z.of_N]; rewrite <- uint_chars_acc; reflexivity.
Qed.

Lemma uint_chars_digits (d : Decimal.uint) :
  forallb isdigit (uint_chars d) = true.
Proof.
  induction d; try reflexivity;
    cbn [uint_chars NilEmpty.string_of_uint list_ascii_of_string forallb];
    fold (uint_chars d); rewrite IHd; reflexivity.
Qed.

Lemma uint_chars_nonnil (d : Decimal.uint) :
  d <> Decimal.Nil -> uint_chars d <> [].
Proof. destruct d; [contradiction | discriminate ..]. Qed.

(** What [str] gives for an integer: its digits, after a minus sign for a
    negative one; the digits give the number back. *)
Lemma str_int_nonneg (n : Z) :
  0 <= n ->
  exists ds, str_int n = ds /\ ds <> [] /\ forallb isdigit ds = true
             /\ digits_value ds = n.
Proof.
  intros Hn. destruct n as [|p|p]; [| |lia].
  - exists (B "0"); repeat split; discriminate.
  - exists (uint_chars (Pos.to_uint p)).
    pose proof (DecimalPos.Unsigned.to_uint_nonnil p) as Hnil.
    repeat split.
    + unfold str_int, uint_chars; cbn [Z.to_int NilZero.string_of_int].
      unfold NilZero.string_of_uint.
      destruct (Pos.to_uint p); [contradiction | reflexivity ..].
    + apply uint_chars_nonnil, Hnil.
    + apply uint_chars_digits.
    + rewrite uint_chars_value, DecimalPos.Unsigned.of_to; reflexivity.
Qed.

Lemma str_int_neg (n : Z) :
  n < 0 -> str_int n = "-"%char :: str_int (- n).
Proof.
  intros Hn. destruct n as [|p|p]; [lia | lia |].
  unfold str_int; cbn [Z.to_int Z.opp NilZero.string_of_int].
  reflexivity.
Qed.

Lemma isdigit_not_space (c : ascii) : isdigit c = true -> isspace c = false.
Proof.
  destruct c as [[] [] [] [] [] [] [] []]; vm_compute; congruence.
Qed.

Lemma isdigit_not_nul (c : ascii) :
  isdigit c = true -> negb (Ascii.eqb c zero) = true.
Proof.
  destruct c as [[] [] [] [] [] [] [] []]; vm_compute; congruence.
Qed.

Lemma rstrip_digits (ds : bytes) : forallb isdigit ds = true -> rstrip ds = ds.
Proof.
  induction ds as [|c ds IH]; [reflexivity|].
  cbn [forallb]; intros H; apply andb_true_iff in H as [Hc Hds].
  rewrite rstrip_nonspace by (apply isdigit_not_space, Hc).
  rewrite IH by exact Hds; reflexivity.
Qed.

Lemma lstrip_digits (ds : bytes) : forallb isdigit ds = true -> lstrip ds = ds.
Proof.
  destruct ds as [|c ds]; [reflexivity|].
  cbn [forallb]; intros H; apply andb_true_iff in H as [Hc _].
  apply lstrip_nonspace, isdigit_not_space, Hc.
Qed.

Lemma strip_digits (ds : bytes) : forallb isdigit ds = true -> strip ds = ds.
Proof.
  intros H; unfold strip; rewrite lstrip_digits, rstrip_digits; auto.
Qed.

Lemma replace_nul_digits (ds : bytes) :
  forallb isdigit ds = true -> replace_nul ds = ds.
Proof.
  induction ds as [|c ds IH]; [reflexivity|].
  cbn [forallb]; intros H; apply andb_true_iff in H as [Hc Hds].
  unfold replace_nul in *; cbn [filter].
  rewrite (isdigit_not_nul c Hc), IH by exact Hds; reflexivity.
Qed.

(** [int] of a string of digits is the number the digits write. *)
Lemma py_int_digits (ds : bytes) :
  ds <> [] -> forallb isdigit ds = true -> py_int ds = Ok (digits_value ds).
Proof.
  intros Hne H. unfold py_int; rewrite (strip_digits ds H).
  destruct ds as [|c r]; [contradiction|].
  assert (Hb : int_body (c :: r) = Ok (digits_value (c :: r)))
    by (unfold int_body; cbn [is_empty]; rewrite H; reflexivity).
  destruct c as [[] [] [] [] [] [] [] []]; try exact Hb;
    cbn in H; discriminate H.
Qed.

Lemma py_int_minus_digits (ds : bytes) :
  ds <> [] -> forallb isdigit ds = true ->
  py_int ("-"%char :: ds) = Ok (- digits_value ds).
Proof.
  intros Hne H. unfold py_int, strip.
  rewrite lstrip_nonspace, rstrip_nonspace, rstrip_digits by (reflexivity || exact H).
  rewrite (lstrip_digits ds H).
  unfold int_body; rewrite H.
  destruct ds; [contradiction | reflexivity].
Qed.

(** [int(str(n))] is [n]. *)
Lemma py_int_str_int (n : Z) : py_int (str_int n) = Ok n.
Proof.
  destruct (Z_lt_le_dec n 0) as [Hneg | Hpos].
  - rewrite (str_int_neg n Hneg).
    destruct (str_int_nonneg (- n)) as (ds & -> & Hne & Hd & Hv); [lia|].
    rewrite py_int_minus_digits, Hv by assumption. f_equal; lia.
  - destruct (str_int_nonneg n Hpos) as (ds & -> & Hne & Hd & Hv).
    rewrite py_int_digits, Hv by assumption; reflexivity.
Qed.

Lemma str_int_head (n : Z) :
  exists c r, str_int n = c :: r /\ isspace c = false
              /\ replace_nul (c :: r) = c :: r.
Proof.
  destruct (Z_lt_le_dec n 0) as [Hneg | Hpos].
  - rewrite (str_int_neg n Hneg).
    destruct (str_int_nonneg (- n)) as (ds & -> & Hne & Hd & Hv); [lia|].
    exists "-"%char, ds; repeat split.
    unfold replace_nul; cbn [filter]. fold (replace_nul ds).
    rewrite (replace_nul_digits ds Hd); reflexivity.
  - destruct (str_int_nonneg n Hpos) as (ds & -> & Hne & Hd & Hv).
    destruct ds as [|c r]; [contradiction|].
    exists c, r; repeat split.
    + cbn [forallb] in Hd; apply andb_true_iff in Hd as [Hc _].
      apply isdigit_not_space, Hc.
    + apply replace_nul_digits, Hd.
Qed.

Lemma lstrip_spaces (k : nat) (s : bytes) :
  lstrip (repeat " "%char k ++ s) = lstrip s.
Proof. induction k as [|k IH]; [reflexivity | exact IH]. Qed.

Lemma replace_nul_spaces (k : nat) (s : bytes) :
  replace_nul (repeat " "%char k ++ s) = repeat " "%char k ++ replace_nul s.
Proof.
  induction k as [|k IH]; [reflexivity|].
  unfold replace_nul in *; cbn [repeat app filter]; cbn.
  rewrite IH; reflexivity.
Qed.

Lemma rjust_len (s : bytes) (width : Z) (fill : ascii) :
  len s <= width -> len (rjust s width fill) = width.
Proof.
  intros H; unfold rjust, len in *.
  rewrite length_app, repeat_length; lia.
Qed.

(** An integer whose text fits the field is written right-justified: as
    many spaces as the field has bytes over, then the text of the integer,
    which fills the field; a reader of a field with no decimal places
    decodes these bytes to the same integer. *)
Theorem numeric_int_roundtrip (n size : Z) :
  len (str (VInt n)) <= size ->
  encode_value (B "N") size (VInt n)
  = Ok (repeat " "%char (Z.to_nat size - length (str (VInt n)))
          ++ str (VInt n))
  /\ len (repeat " "%char (Z.to_nat size - length (str (VInt n)))
            ++ str (VInt n)) = size
  /\ decode_value (B "N") 0
       (repeat " "%char (Z.to_nat size - length (str (VInt n)))
          ++ str (VInt n))
     = Ok (VInt n).
Proof.
  intros Hfit. cbn [str] in *.
  assert (Hr : rjust (str_int n) size " "
               = repeat " "%char (Z.to_nat size - length (str_int n))
                   ++ str_int n)
    by (unfold rjust, len in *; do 2 f_equal; lia).
  rewrite <- Hr.
  pose proof (rjust_len (str_int n) size " " Hfit) as Hlen.
  split; [|split; [exact Hlen|]].
  - unfold encode_value.
    change (render_value (B "N") size (VInt n))
      with (Ok (rjust (str_int n) size " ")).
    cbn [bind]; rewrite Hlen, Z.eqb_refl; reflexivity.
  - change (decode_value (B "N") 0 (rjust (str_int n) size " "))
      with (decode_numeric 0 (rjust (str_int n) size " ")).
    unfold decode_numeric, rjust.
    destruct (str_int_head n) as (c & r & Hs & Hc & Hnul).
    rewrite replace_nul_spaces, lstrip_spaces, Hs, Hnul.
    rewrite (lstrip_nonspace c r Hc). cbn [bytes_eqb Z.eqb negb].
    rewrite <- Hs, py_int_str_int; reflexivity.
Qed.

Lemma numeric_int_roundtrip_witness :
  encode_value (B "N") 5 (VInt (-42))
  = Ok (repeat " "%char (Z.to_nat 5 - length (str (VInt (-42))))
          ++ str (VInt (-42)))
  /\ len (repeat " "%char (Z.to_nat 5 - length (str (VInt (-42))))
            ++ str (VInt (-42))) = 5
  /\ decode_value (B "N") 0
       (repeat " "%char (Z.to_nat 5 - length (str (VInt (-42))))
          ++ str (VInt (-42)))
     = Ok (VInt (-42)).
Proof. apply (numeric_int_roundtrip (-42) 5); vm_compute; discriminate. Defined.

(* ================================================================== *)
(** ** Dates as text and back *)

Lemma skipn_exact (n : nat) (data f : bytes) :
  length data = n -> skipn n (data ++ f) = f.
Proof.
  intros <-; rewrite skipn_app, Nat.sub_diag, skipn_all; reflexivity.
Qed.

Lemma digits_value_zeros (k : nat) (ds : bytes) :
  digits_value (repeat "0"%char k ++ ds) = digits_value ds.
Proof.
  unfold digits_value; induction k as [|k IH]; [reflexivity | exact IH].
Qed.

(** A number that is not negative, padded with zeros, reads as itself. *)
Lemma py_int_zpad (width n : Z) : 0 <= n -> py_int (zpad width n) = Ok n.
Proof.
  intros Hn. destruct (str_int_nonneg n Hn) as (ds & Hs & Hne & Hd & Hv).
  unfold zpad, rjust; rewrite Hs.
  rewrite py_int_digits.
  - rewrite digits_value_zeros, Hv; reflexivity.
  - destruct ds; [contradiction|]. intros H; apply app_eq_nil in H as [_ H].
    discriminate.
  - rewrite forallb_app, Hd, andb_true_r.
    induction (Z.to_nat (width - len ds)) as [|k IH]; [reflexivity | exact IH].
Qed.

Lemma zpad4_len (y : Z) : 1000 <= y <= 9999 -> length (zpad 4 y) = 4%nat.
Proof.
  intros Hy.
  assert (H : (length (zpad 4 y) =? 4)%nat = true).
  { apply (all_from_spec (fun z => (length (zpad 4 z) =? 4)%nat)
             (Z.to_nat 9000) 1000);
      [vm_compute; reflexivity | rewrite Z2Nat.id; lia]. }
  apply Nat.eqb_eq, H.
Qed.

Lemma zpad2_len (z : Z) : 0 <= z <= 99 -> length (zpad 2 z) = 2%nat.
Proof.
  intros Hz.
  assert (H : (length (zpad 2 z) =? 2)%nat = true).
  { apply (all_from_spec (fun z => (length (zpad 2 z) =? 2)%nat)
             (Z.to_nat 100) 0);
      [vm_compute; reflexivity | rewrite Z2Nat.id; lia]. }
  apply Nat.eqb_eq, H.
Qed.

Lemma date_valid (y m d : Z) (v : pyval) :
  date y m d = Ok v ->
  v = VDate y m d
  /\ 1 <= y <= 9999 /\ 1 <= m <= 12 /\ 1 <= d <= days_in_month y m.
Proof.
  unfold date.
  destruct (1 <=? y) eqn:H1; [|discriminate].
  destruct (y <=? 9999) eqn:H2; [|discriminate].
  destruct (1 <=? m) eqn:H3; [|discriminate].
  destruct (m <=? 12) eqn:H4; [|discriminate].
  destruct (1 <=? d) eqn:H5; [|discriminate].
  destruct (d <=? days_in_month y m) eqn:H6; [|discriminate].
  cbn [andb]; intros [= <-].
  apply Z.leb_le in H1, H2, H3, H4, H5, H6. repeat split; assumption.
Qed.

Lemma days_in_month_max (y m : Z) : days_in_month y m <= 31.
Proof.
  unfold days_in_month.
  destruct (m =? 2); [destruct (is_leap y); lia|].
  destruct ((m =? 4) || (m =? 6) || (m =? 9) || (m =? 11)); lia.
Qed.

(** A calendar date of the year 1900 or later is written to a date field
    of size 8 and read back as the same date. *)
Theorem date_field_roundtrip (y m d deci : Z) :
  date y m d = Ok (VDate y m d) ->
  1900 <= y ->
  exists s,
    encode_value (B "D") 8 (VDate y m d) = Ok s
    /\ decode_value (B "D") deci s = Ok (VDate y m d).
Proof.
  intros Hdate Hy.
  destruct (date_valid _ _ _ _ Hdate) as (_ & Hy' & Hm & Hd).
  pose proof (days_in_month_max y m) as Hmax.
  pose proof (zpad4_len y ltac:(lia)) as L4.
  pose proof (zpad2_len m ltac:(lia)) as Lm.
  pose proof (zpad2_len d ltac:(lia)) as Ld.
  exists (zpad 4 y ++ zpad 2 m ++ zpad 2 d). split.
  - unfold encode_value.
    change (render_value (B "D") 8 (VDate y m d))
      with (strftime_Ymd (VDate y m d)).
    cbn [strftime_Ymd].
    replace (y <? 1900) with false by (symmetry; apply Z.ltb_ge; lia).
    cbn [bind]. unfold len; rewrite !length_app, L4, Lm, Ld; reflexivity.
  - change (decode_value (B "D") deci (zpad 4 y ++ zpad 2 m ++ zpad 2 d))
      with (decode_date (zpad 4 y ++ zpad 2 m ++ zpad 2 d)).
    unfold decode_date, slice_to, slice.
    cbn [Z.ltb Z.compare Z.to_nat Pos.to_nat Pos.iter_op Nat.add Nat.sub].
    change (Pos.to_nat 4) with 4%nat.
    rewrite (firstn_exact 4 _ _ L4), py_int_zpad by lia. cbn [bind].
    rewrite (skipn_exact 4 _ _ L4), (firstn_exact 2 _ _ Lm), py_int_zpad
      by lia. cbn [bind].
    change 6%nat with (2 + 4)%nat; rewrite <- skipn_skipn.
    rewrite (skipn_exact 4 _ _ L4), (skipn_exact 2 _ _ Lm).
    rewrite <- (app_nil_r (zpad 2 d)), (firstn_exact 2 _ _ Ld), py_int_zpad
      by lia.
    cbn [bind]. exact Hdate.
Qed.

Lemma date_field_roundtrip_witness :
  exists s,
    encode_value (B "D") 8 (VDate 2024 2 29) = Ok s
    /\ decode_value (B "D") 0 s = Ok (VDate 2024 2 29).
Proof.
  apply (date_field_roundtrip 2024 2 29 0); [reflexivity | lia].
Defined.

(* ================================================================== *)
(** ** Text and logical fields *)

(** A field whose type is none of [N], [D], [L], of a size that is not
    negative: the string of the value is cut to the size or padded with
    spaces to it, never refused, and it is read back as written, the
    padding kept. *)
Theorem text_field_cut_and_padded (typ : bytes) (size deci : Z) (v : pyval) :
  typ <> B "N" -> typ <> B "D" -> typ <> B "L" ->
  0 <= size ->
  encode_value typ size v
  = Ok (firstn (Z.to_nat size) (str v)
          ++ repeat " "%char (Z.to_nat size - length (str v)))
  /\ decode_value typ deci
       (firstn (Z.to_nat size) (str v)
          ++ repeat " "%char (Z.to_nat size - length (str v)))
     = Ok (VStr (firstn (Z.to_nat size) (str v)
                   ++ repeat " "%char (Z.to_nat size - length (str v)))).
Proof.
  intros HN HD HL Hsize.
  unfold encode_value, decode_value, render_value.
  rewrite (bytes_eqb_neq _ _ HN), (bytes_eqb_neq _ _ HD),
    (bytes_eqb_neq _ _ HL).
  split; [|reflexivity]. cbn [bind]. unfold ljust, slice_to.
  replace (size <? 0) with false by (symmetry; apply Z.ltb_ge; lia).
  assert (Hk : Z.to_nat (size - len (firstn (Z.to_nat size) (str v)))
               = (Z.to_nat size - length (str v))%nat)
    by (unfold len; rewrite length_firstn; lia).
  rewrite Hk.
  replace (len (firstn (Z.to_nat size) (str v)
                  ++ repeat " "%char (Z.to_nat size - length (str v)))
           =? size) with true; [reflexivity|].
  symmetry; apply Z.eqb_eq.
  unfold len; rewrite length_app, length_firstn, repeat_length; lia.
Qed.

Lemma text_field_cut_and_padded_witness :
  encode_value (B "C") 3 (VStr (B "Alice"))
  = Ok (firstn (Z.to_nat 3) (str (VStr (B "Alice")))
          ++ repeat " "%char (Z.to_nat 3 - length (str (VStr (B "Alice")))))
  /\ decode_value (B "C") 0
       (firstn (Z.to_nat 3) (str (VStr (B "Alice")))
          ++ repeat " "%char (Z.to_nat 3 - length (str (VStr (B "Alice")))))
     = Ok (VStr (firstn (Z.to_nat 3) (str (VStr (B "Alice")))
                   ++ repeat " "%char
                        (Z.to_nat 3 - length (str (VStr (B "Alice")))))).
Proof.
  apply (text_field_cut_and_padded (B "C") 3 0 (VStr (B "Alice")));
    (discriminate || lia).
Defined.

(** A logical field is written as the first character of the string of the
    value, in upper case: a field of any size but 1 cannot be written, and
    a value whose string is empty raises [IndexError].  Read back, the
    field gives the class of that first character, whatever its case. *)
Theorem logical_field_first_character (size deci : Z) (v : pyval) :
  (size <> 1 -> exists e, encode_value (B "L") size v = Raise e)
  /\ (str v = [] -> encode_value (B "L") size v = Raise IndexError)
  /\ (forall c r, str v = c :: r ->
        encode_value (B "L") 1 v = Ok [upper c]
        /\ decode_value (B "L") deci [upper c] = Ok (decode_logical [c])).
Proof.
  unfold encode_value.
  change (render_value (B "L") size v)
    with (match str v with [] => Raise IndexError | c :: _ => Ok [upper c] end).
  change (render_value (B "L") 1 v)
    with (match str v with [] => Raise IndexError | c :: _ => Ok [upper c] end).
  repeat split.
  - intros Hsize. destruct (str v) as [|c r]; cbn [bind];
      [exists IndexError; reflexivity|].
    exists AssertionError.
    destruct (Z.eqb_spec (len [upper c]) size) as [H|H];
      [cbn in H; congruence | reflexivity].
  - intros ->; reflexivity.
  - rewrite H; reflexivity.
  - clear H r v.
    destruct c as [[] [] [] [] [] [] [] []]; vm_compute; reflexivity.
Qed.

(** A numeric field that holds only white space and NUL bytes is read as
    the integer 0, also where the field has decimal places. *)
Theorem numeric_blank_is_zero (deci : Z) (raw : bytes) :
  forallb (fun c => isspace c || Ascii.eqb c zero) raw = true ->
  decode_value (B "N") deci raw = Ok (VInt 0).
Proof.
  intros H.
  change (decode_value (B "N") deci raw) with (decode_numeric deci raw).
  unfold decode_numeric.
  replace (lstrip (replace_nul raw)) with (@nil ascii); [reflexivity|].
  symmetry. induction raw as [|c raw IH]; [reflexivity|].
  cbn [forallb] in H; apply andb_true_iff in H as [Hc Hraw].
  unfold replace_nul in *; cbn [filter].
  destruct (Ascii.eqb c zero); cbn [negb]; [exact (IH Hraw)|].
  rewrite orb_false_r in Hc. cbn [lstrip]; rewrite Hc. exact (IH Hraw).
Qed.

Lemma numeric_blank_is_zero_witness :
  decode_value (B "N") 2 [" "; zero; " "; " "]%char = Ok (VInt 0).
Proof. apply (numeric_blank_is_zero 2); reflexivity. Defined.

(* ================================================================== *)
(** ** Files that end too early *)

Lemma read_fields_short (n : nat) (f : bytes) :
  (length f < 32 * n)%nat -> read_fields n f = Raise StructError.
Proof.
  revert f; induction n as [|n IH]; intros f Hlen; [lia|].
  cbn [read_fields]. unfold read; change (Z.to_nat 32) with 32%nat.
  unfold unpack_field.
  destruct (Nat.eqb_spec (length (firstn 32 f)) 32) as [Hd|Hd];
    [|reflexivity].
  cbn [bind]. rewrite IH; [reflexivity|].
  rewrite length_firstn in Hd. rewrite length_skipn. lia.
Qed.

Lemma read_fields_rest (n : nat) (f f2 : bytes) (fields : list field) :
  read_fields n f = Ok (fields, f2) -> f2 = skipn (32 * n) f.
Proof.
  intros H.
  destruct (read_fields_prefix _ _ _ _ H) as (c & -> & Hc & _ & _).
  symmetry; apply skipn_exact; exact Hc.
Qed.

(** A file that ends before its header or before the last of the field
    descriptors its header announces: the reader raises [struct.error]
    and has yielded nothing, not the names of the fields that are
    there. *)
Theorem truncated_header_raises (f : bytes) :
  (length f < 32)%nat
  \/ (exists numrec lenheader,
        unpack_header (firstn 32 f) = Ok (numrec, lenheader)
        /\ (length f < 32 + 32 * Z.to_nat ((lenheader - 33) / 32))%nat) ->
  dbfreader f = ([], Raise StructError).
Proof.
  intros [Hlen | (numrec & lenheader & Hh & Hlen)];
    unfold dbfreader, read; change (Z.to_nat 32) with 32%nat.
  - unfold unpack_header.
    destruct (Nat.eqb_spec (length (firstn 32 f)) 32) as [Hd|Hd];
      [|reflexivity].
    rewrite length_firstn in Hd; lia.
  - rewrite Hh, read_fields_short; [reflexivity|].
    apply unpack_header_length in Hh. rewrite length_firstn in Hh.
    rewrite length_skipn; lia.
Qed.

Lemma truncated_header_raises_witness :
  dbfreader (pad 8 ++ chr 97 :: pad 23 ++ pad 40)
  = ([], Raise StructError).
Proof.
  apply truncated_header_raises. right. exists 0, 97.
  split; [reflexivity | vm_compute; lia].
Defined.

(** A file whose header and field descriptors are all there, and in which
    the byte after them is not a carriage return, or is missing: the
    reader yields the names and the specs of the fields and then raises
    [AssertionError]; it reads no record. *)
Theorem missing_terminator_raises (f : bytes) (numrec lenheader : Z) :
  unpack_header (firstn 32 f) = Ok (numrec, lenheader) ->
  (32 + 32 * Z.to_nat ((lenheader - 33) / 32) <= length f)%nat ->
  firstn 1 (skipn (32 + 32 * Z.to_nat ((lenheader - 33) / 32)) f)
    <> [chr 13] ->
  exists fields,
    length fields = Z.to_nat ((lenheader - 33) / 32)
    /\ dbfreader f = ([Names (map field_name fields);
                       Specs (map field_spec fields)],
                      Raise AssertionError).
Proof.
  intros Hh Hlen Hterm.
  destruct (read_fields_total (Z.to_nat ((lenheader - 33) / 32)) (skipn 32 f))
    as (fields & f2 & Hf & Hn); [rewrite length_skipn; lia|].
  exists fields; split; [exact Hn|].
  unfold dbfreader, read; change (Z.to_nat 32) with 32%nat.
  rewrite Hh, Hf. change (Z.to_nat 1) with 1%nat.
  apply read_fields_rest in Hf. rewrite skipn_skipn in Hf.
  rewrite (Nat.add_comm _ 32) in Hf. subst f2.
  rewrite (bytes_eqb_neq _ _ Hterm). reflexivity.
Qed.

Lemma missing_terminator_raises_witness :
  exists fields,
    length fields = Z.to_nat ((65 - 33) / 32)
    /\ dbfreader (pad 8 ++ chr 65 :: pad 23 ++ pad 32)
       = ([Names (map field_name fields); Specs (map field_spec fields)],
          Raise AssertionError).
Proof.
  apply (missing_terminator_raises _ 0 65);
    [reflexivity | vm_compute; lia | vm_compute; discriminate].
Defined.

Lemma read_records_add (fields : list field) (n m : nat) (f rest : bytes)
  (rows : list row) :
  read_records fields n f = (rows, Ok rest) ->
  read_records fields (n + m) f
  = (rows ++ fst (read_records fields m rest),
     snd (read_records fields m rest)).
Proof.
  revert f rows; induction n as [|n IH]; intros f rows H.
  - injection H as <- <-. cbn [Nat.add app].
    destruct (read_records fields m f); reflexivity.
  - cbn [Nat.add read_records] in *.
    destruct (read (calcsize (map field_size fields)) f) as [data f1].
    destruct (unpack_strings (map field_size fields) data)
      as [[|[|c flag] record]|e]; try discriminate.
    + cbn [bytes_eqb negb] in *. exact (IH _ _ H).
    + destruct (negb (bytes_eqb (c :: flag) (B " "))); [exact (IH _ _ H)|].
      destruct (decode_fields _) as [result|e]; [|discriminate].
      destruct (read_records fields n f1) as [rows' ending] eqn:Hrest.
      injection H as <- ->.
      rewrite (IH _ _ Hrest). reflexivity.
Qed.

(** A file that ends in the middle of a record, or has fewer records than
    the count of its header: the reader yields the records that are
    whole and then raises [struct.error]. *)
Theorem truncated_record_raises (fields : list field) (k n : nat)
  (f rest : bytes) (rows : list row) :
  read_records fields k f = (rows, Ok rest) ->
  (k < n)%nat ->
  len rest < calcsize (map field_size fields) ->
  read_records fields n f = (rows, Raise StructError).
Proof.
  intros H Hkn Hshort.
  replace n with (k + S (n - k - 1))%nat by lia.
  rewrite (read_records_add _ _ _ _ _ _ H).
  cbn [read_records]. unfold read, unpack_strings.
  replace (len (firstn _ rest) =? _) with false.
  - cbn [fst snd]. rewrite app_nil_r. reflexivity.
  - symmetry; apply Z.eqb_neq.
    unfold len in *. rewrite length_firstn. lia.
Qed.

Lemma truncated_record_raises_witness :
  read_records [DeletionFlag; (B "A", B "C", 2, 0)] 3 (B " ab cd e")
  = ([Record_ [VStr (B "ab")]; Record_ [VStr (B "cd")]], Raise StructError).
Proof.
  apply (truncated_record_raises _ 2 3 _ (B " e"));
    [reflexivity | lia | vm_compute; reflexivity].
Defined.

(* ================================================================== *)
(** ** A file that was written, read *)

Lemma unpack_pack_le (n : nat) (v : Z) :
  0 <= v < 256 ^ Z.of_nat n -> unpack_le (pack_le n v) = v.
Proof.
  revert v; induction n as [|n IH]; intros v Hv.
  - cbn in *; lia.
  - cbn [pack_le unpack_le].
    rewrite Nat2Z.inj_succ, Z.pow_succ_r in Hv by lia.
    rewrite ord_chr by (apply Z.mod_pos_bound; lia).
    rewrite IH by (split; [apply Z.div_pos; lia
                          | apply Z.div_lt_upper_bound; lia]).
    pose proof (Z.div_mod v 256); lia.
Qed.

Lemma ljust_firstn_len (n : nat) (s : bytes) (c : ascii) :
  length (ljust (firstn n s) (Z.of_nat n) c) = n.
Proof.
  unfold ljust, len. rewrite length_app, repeat_length, length_firstn. lia.
Qed.

Lemma replace_nul_app (s t : bytes) :
  replace_nul (s ++ t) = replace_nul s ++ replace_nul t.
Proof. apply filter_app. Qed.

Lemma replace_nul_zeros (n : nat) : replace_nul (repeat zero n) = [].
Proof. induction n as [|n IH]; [reflexivity | exact IH]. Qed.

(** The name of a descriptor, as the writer packs it, without its NUL
    bytes. *)
Lemma packed_name (name : bytes) :
  replace_nul (ljust (firstn 11 (ljust name 11 zero)) 11 zero)
  = stored_name name.
Proof.
  unfold stored_name, ljust at 1.
  rewrite replace_nul_app, replace_nul_zeros, app_nil_r.
  unfold ljust. rewrite firstn_app, replace_nul_app.
  rewrite firstn_all2 with (l := repeat zero _);
    [|rewrite repeat_length; unfold len; lia].
  rewrite replace_nul_zeros, app_nil_r. reflexivity.
Qed.

Lemma stored_name_not_flag (name : bytes) :
  bytes_eqb (stored_name name) (B "DeletionFlag") = false.
Proof.
  apply bytes_eqb_neq. intros H. apply (f_equal (@length ascii)) in H.
  unfold stored_name, replace_nul in H.
  pose proof (filter_length_le (fun c => negb (Ascii.eqb c zero))
                (firstn 11 name)) as Hf.
  rewrite length_firstn, H in Hf.
  change (length (B "DeletionFlag")) with 12%nat in Hf. lia.
Qed.

(** A descriptor that was packed is 32 bytes long and is unpacked to what
    went into it; the size and the count of decimal places fit a byte. *)
Lemma pack_field_unpack (name typ : bytes) (size deci : Z) (fld : bytes) :
  pack_field (ljust name 11 zero) typ size deci = Ok fld ->
  unpack_field fld
  = Ok (ljust (firstn 11 (ljust name 11 zero)) 11 zero, typ, size, deci)
  /\ 0 <= size < 256.
Proof.
  unfold pack_field.
  pose proof (ljust_firstn_len 11 (ljust name 11 zero) zero) as Hn.
  change (Z.of_nat 11) with 11 in Hn.
  set (nm := ljust (firstn 11 (ljust name 11 zero)) 11 zero) in *.
  clearbody nm.
  destruct typ as [|c [|c' typ]]; try discriminate.
  cbn [length Nat.eqb bind].
  destruct (pack_uint 1 size) as [s|e] eqn:Hs; [|discriminate].
  destruct (pack_uint 1 deci) as [d|e] eqn:Hd; [|discriminate].
  apply pack_uint_inv in Hs as [Hsize ->], Hd as [Hdeci ->].
  cbn [bind]. intros [= <-]. split; [|exact Hsize].
  do 11 (destruct nm as [|? nm]; [discriminate Hn|]).
  destruct nm; [|discriminate Hn].
  unfold unpack_field, slice.
  cbn [length app pad repeat pack_le Nat.eqb Nat.sub skipn firstn unpack_le].
  rewrite !ord_chr by (apply Z.mod_pos_bound; lia).
  rewrite !Z.mod_small by lia.
  do 3 f_equal; lia.
Qed.

(** The descriptors that were written, read. *)
Lemma write_specs_read (l : list (bytes * fieldspec)) (o t : bytes) :
  write_specs l = (o, None) ->
  read_fields (length l) (o ++ t) = Ok (map stored_field l, t)
  /\ length o = (32 * length l)%nat.
Proof.
  revert o; induction l as [|[name [[typ size] deci]] l IH]; intros o H.
  - injection H as <-. split; reflexivity.
  - cbn [write_specs] in H.
    destruct (pack_field (ljust name 11 zero) typ size deci) as [fld|e] eqn:Hp;
      [|discriminate].
    apply and_then_ok in H as (oa & ob & [= <-] & Hb & ->).
    destruct (IH _ Hb) as [Hread Hlen].
    apply pack_field_unpack in Hp as [Hu _].
    pose proof (unpack_field_length _ _ Hu) as Hfld.
    split; [|rewrite length_app, Hfld, Hlen; cbn [length]; lia].
    cbn [length read_fields]. rewrite <- app_assoc.
    rewrite read_app by exact Hfld.
    rewrite Hu; cbn [bind]. rewrite Hread; cbn [bind].
    rewrite packed_name. reflexivity.
Qed.

Lemma stored_fields_names (names : list bytes) (specs : list fieldspec) :
  (length specs <= length names)%nat ->
  map field_name (map stored_field (combine names specs))
  = map stored_name (firstn (length specs) names).
Proof.
  revert specs; induction names as [|n names IH];
    intros [|[[typ size] deci] specs] Hlen; try reflexivity.
  cbn [length] in Hlen.
  cbn [combine map length firstn]. rewrite IH by lia. reflexivity.
Qed.

Lemma stored_fields_specs (names : list bytes) (specs : list fieldspec) :
  (length specs <= length names)%nat ->
  map field_spec (map stored_field (combine names specs)) = specs.
Proof.
  revert specs; induction names as [|n names IH];
    intros [|[[typ size] deci] specs] Hlen; try reflexivity;
    cbn [length] in Hlen; [lia|].
  cbn [combine map]. rewrite IH by lia. reflexivity.
Qed.

Lemma stored_fields_not_flag (l : list (bytes * fieldspec)) :
  Forall (fun fieldinfo =>
            bytes_eqb (field_name fieldinfo) (B "DeletionFlag") = false)
         (map stored_field l).
Proof.
  induction l as [|[name [[typ size] deci]] l IH]; constructor;
    [apply stored_name_not_flag | exact IH].
Qed.

(** The fields of a record that were written, cut apart and decoded. *)
Lemma write_fields_decode (l : list (fieldspec * pyval)) (fl : list field)
  (o t : bytes) :
  map field_spec fl = map fst l ->
  Forall (fun fieldinfo =>
            bytes_eqb (field_name fieldinfo) (B "DeletionFlag") = false) fl ->
  write_fields l = (o, None) ->
  decode_fields (combine fl (split_sizes (map field_size fl) (o ++ t)))
  = reread_fields l.
Proof.
  revert fl o; induction l as [|[[[typ size] deci] v] l IH];
    intros [|[[[name typ'] size'] deci'] fl] o Hspec Hname H;
    try discriminate; [reflexivity|].
  cbn [map fst field_spec] in Hspec. injection Hspec as -> -> -> Hspec.
  inversion Hname as [|? ? Hn Hname']; subst. cbn [field_name] in Hn.
  cbn [write_fields] in H.
  destruct (encode_value typ size v) as [s|e] eqn:He; [|discriminate].
  apply and_then_ok in H as (oa & ob & [= <-] & Hb & ->).
  pose proof (encode_value_len _ _ _ _ He) as Hlen.
  assert (Hs : length s = Z.to_nat size) by (unfold len in Hlen; lia).
  cbn [map field_size split_sizes combine decode_fields].
  rewrite Hn, <- app_assoc, (firstn_exact _ _ _ Hs), (skipn_exact _ _ _ Hs).
  rewrite (IH _ _ Hspec Hname' Hb).
  cbn [reread_fields reread_value]. rewrite He. reflexivity.
Qed.

(** The records that were written, read: the reader takes each for a
    record that is not deleted, and finds in it the fields as they were
    written. *)
Lemma write_records_read (specs : list fieldspec) (fields : list field)
  (records : list (list pyval)) (o t : bytes) :
  map field_spec fields = specs ->
  Forall (fun fieldinfo =>
            bytes_eqb (field_name fieldinfo) (B "DeletionFlag") = false)
         fields ->
  Forall (fun record => (length specs <= length record)%nat) records ->
  write_records specs records = (o, None) ->
  read_records (DeletionFlag :: fields) (length records) (o ++ t)
  = reread_records specs records t.
Proof.
  intros Hspec Hname Hrec; revert o.
  induction Hrec as [|record records Hlen Hrec IH]; intros o H.
  - injection H as <-. reflexivity.
  - cbn [write_records] in H.
    apply and_then_ok in H as (oa & ob & Ha & Hb & ->).
    apply and_then_ok in Ha as (o1 & o2 & [= <-] & Hf & ->).
    pose proof (write_fields_len _ _ Hf) as Ho2.
    rewrite (combine_fst _ _ Hlen), <- Hspec, field_sizes_of_specs in Ho2.
    pose proof (write_fields_decode (combine specs record) fields o2 [])
      as Hd.
    rewrite (combine_fst _ _ Hlen), app_nil_r in Hd.
    specialize (Hd Hspec Hname Hf).
    cbn [length read_records reread_records].
    change (map field_size (DeletionFlag :: fields))
      with (1 :: map field_size fields).
    change (calcsize (1 :: map field_size fields))
      with (1 + calcsize (map field_size fields)).
    unfold calcsize in *.
    rewrite <- app_assoc, read_app
      by (unfold len in Ho2; rewrite length_app; cbn [length]; lia).
    unfold unpack_strings, calcsize.
    replace (len (B " " ++ o2) =? _) with true
      by (symmetry; apply Z.eqb_eq; unfold len in *;
          rewrite length_app; change (length (B " ")) with 1%nat;
          cbn [fold_right]; lia).
    change (split_sizes (1 :: map field_size fields) ([" "%char] ++ o2))
      with ([" "%char] :: split_sizes (map field_size fields) o2).
    change (negb (bytes_eqb [" "%char] (B " "))) with false.
    change (decode_fields (combine (DeletionFlag :: fields)
              ([" "%char] :: split_sizes (map field_size fields) o2)))
      with (decode_fields (combine fields
              (split_sizes (map field_size fields) o2))).
    rewrite Hd.
    destruct (reread_fields (combine specs record)); [|reflexivity].
    rewrite (IH _ Hb). reflexivity.
Qed.

Lemma pack_header_numrec (ver yr mon day_ numrec lenheader lenrecord : Z)
  (hdr : bytes) :
  pack_header ver yr mon day_ numrec lenheader lenrecord = Ok hdr ->
  0 <= numrec < 256 ^ Z.of_nat 4.
Proof.
  unfold pack_header.
  destruct (pack_uint 1 ver); [|discriminate].
  destruct (pack_uint 1 yr); [|discriminate].
  destruct (pack_uint 1 mon); [|discriminate].
  destruct (pack_uint 1 day_); [|discriminate].
  destruct (pack_uint 4 numrec) as [b4|] eqn:H4; [|discriminate].
  intros _. apply pack_uint_inv in H4 as [H4 _]. exact H4.
Qed.

Lemma unpack_header_packed (b0 b1 b2 b3 n lh lr : Z) :
  unpack_header (pack_le 1 b0 ++ pack_le 1 b1 ++ pack_le 1 b2 ++ pack_le 1 b3
                   ++ pack_le 4 n ++ pack_le 2 lh ++ pack_le 2 lr ++ pad 20)
  = Ok (unpack_le (pack_le 4 n), unpack_le (pack_le 2 lh)).
Proof. reflexivity. Qed.

(** What the reader makes of a file that the writer wrote to its end, when
    the count of the header is the number of the first records [rs1]. *)
Lemma dbfwriter_dbfreader (now : Z * Z * Z) (names : list bytes)
  (specs : list fieldspec) (rs1 rs2 : list (list pyval)) (numrec : option Z)
  (file : bytes) :
  dbfwriter now names specs (rs1 ++ rs2) numrec = (file, None) ->
  match numrec with
  | None => rs2 = []
  | Some n => n = Z.of_nat (length rs1)
  end ->
  (length specs <= length names)%nat ->
  Forall (fun record => (length specs <= length record)%nat) rs1 ->
  exists o2,
    write_records specs rs2 = (o2, None)
    /\ dbfreader file
       = (Names (map stored_name (firstn (length specs) names))
            :: Specs specs
            :: fst (reread_records specs rs1 (o2 ++ [chr 26])),
          snd (reread_records specs rs1 (o2 ++ [chr 26]))).
Proof.
  intros H Hcount Hnames Hrecs.
  destruct now as [[year month] day_]. unfold dbfwriter in H.
  set (count := match numrec with
                | None => Z.of_nat (length (rs1 ++ rs2))
                | Some n => n
                end) in H.
  assert (Hc : count = Z.of_nat (length rs1)).
  { subst count. destruct numrec as [n|]; [exact Hcount|].
    rewrite Hcount, app_nil_r. reflexivity. }
  destruct (pack_header _ _ _ _ _ _ _) as [hdr|e] eqn:Hh; [|discriminate].
  pose proof (pack_header_numrec _ _ _ _ _ _ _ _ Hh) as Hn.
  apply pack_header_inv in Hh as (Hlh & _ & Hhdr).
  apply and_then_ok in H as (o & ofile & [= <-] & H & ->).
  apply and_then_ok in H as (ospecs & ofile' & Hs & H & ->).
  apply and_then_ok in H as (o & ofile & [= <-] & H & ->).
  apply and_then_ok in H as (orecs & o & Hr & [= <-] & ->).
  rewrite write_records_app in Hr.
  apply and_then_ok in Hr as (o1 & o2 & Hr1 & Hr2 & ->).
  exists o2; split; [exact Hr2|].
  destruct (write_specs_read _ _ ([chr 13] ++ (o1 ++ o2) ++ [chr 26]) Hs)
    as [Hread _].
  rewrite length_combine, Nat.min_r in Hread by exact Hnames.
  pose proof (write_records_read specs
                (map stored_field (combine names specs)) rs1 o1
                (o2 ++ [chr 26])
                (stored_fields_specs _ _ Hnames)
                (stored_fields_not_flag _) Hrecs Hr1) as Hrr.
  unfold dbfreader.
  rewrite read_app by (rewrite Hhdr; reflexivity).
  rewrite Hhdr, unpack_header_packed.
  rewrite (unpack_pack_le 4) by exact Hn.
  rewrite (unpack_pack_le 2) by (change (256 ^ Z.of_nat 2) with 65536; lia).
  replace ((Z.of_nat (length specs) * 32 + 33 - 33) / 32)
    with (Z.of_nat (length specs))
    by (rewrite Z.add_simpl_r, Z.div_mul; lia).
  rewrite Nat2Z.id, Hread.
  rewrite read_app by reflexivity.
  rewrite bytes_eqb_refl; cbn [negb].
  rewrite Hc, Nat2Z.id, <- app_assoc, Hrr.
  rewrite (stored_fields_names _ _ Hnames), (stored_fields_specs _ _ Hnames).
  destruct (reread_records specs rs1 (o2 ++ [chr 26])); reflexivity.
Qed.

(** A file that the writer wrote to its end, with the count of its records
    in the header, read: the reader yields the names (their first 11
    bytes, without NUL bytes), the specs as they were given, and the
    records in their order, each value decoded from the bytes it was
    rendered to; it stops at the first value that cannot be decoded, and
    else leaves the end-of-file byte unread.  No record is taken for
    deleted and no field is lost. *)
Theorem written_file_read_back (now : Z * Z * Z) (names : list bytes)
  (specs : list fieldspec) (records : list (list pyval)) (file : bytes) :
  dbfwriter now names specs records None = (file, None) ->
  (length specs <= length names)%nat ->
  Forall (fun record => (length specs <= length record)%nat) records ->
  dbfreader file
  = (Names (map stored_name (firstn (length specs) names))
       :: Specs specs
       :: fst (reread_records specs records [chr 26]),
     snd (reread_records specs records [chr 26])).
Proof.
  intros H Hnames Hrecs.
  rewrite <- (app_nil_r records) in H.
  destruct (dbfwriter_dbfreader _ _ _ _ _ _ _ H eq_refl Hnames Hrecs)
    as (o2 & [= <-] & Hread).
  exact Hread.
Qed.

Lemma written_file_read_back_witness :
  dbfreader (fst (dbfwriter (2008, 3, 14) example_names example_specs
                    [example_record; [VStr (B "Bob"); VStr (B "x")]] None))
  = (Names (map stored_name (firstn (length example_specs) example_names))
       :: Specs example_specs
       :: fst (reread_records example_specs
                 [example_record; [VStr (B "Bob"); VStr (B "x")]] [chr 26]),
     snd (reread_records example_specs
            [example_record; [VStr (B "Bob"); VStr (B "x")]] [chr 26])).
Proof.
  apply (written_file_read_back (2008, 3, 14)).
  - reflexivity.
  - simpl; lia.
  - repeat constructor.
Defined.

(** A count of records given to the writer that is smaller than the
    number of the records: all the records are written, and the reader
    yields the first [numrec] of them and reads no further. *)
Theorem explicit_count_limits_reader (now : Z * Z * Z) (names : list bytes)
  (specs : list fieldspec) (records : list (list pyval)) (numrec : Z)
  (file : bytes) :
  dbfwriter now names specs records (Some numrec) = (file, None) ->
  numrec <= Z.of_nat (length records) ->
  (length specs <= length names)%nat ->
  Forall (fun record => (length specs <= length record)%nat) records ->
  exists rest,
    snd (write_records specs (skipn (Z.to_nat numrec) records)) = None
    /\ rest = fst (write_records specs (skipn (Z.to_nat numrec) records))
              ++ [chr 26]
    /\ dbfreader file
       = (Names (map stored_name (firstn (length specs) names))
            :: Specs specs
            :: fst (reread_records specs
                      (firstn (Z.to_nat numrec) records) rest),
          snd (reread_records specs
                 (firstn (Z.to_nat numrec) records) rest)).
Proof.
  intros H Hle Hnames Hrecs.
  assert (H0 : 0 <= numrec).
  { destruct now as [[year month] day_]. unfold dbfwriter in H.
    destruct (pack_header _ _ _ _ _ _ _) as [hdr|e] eqn:Hh; [|discriminate].
    apply pack_header_numrec in Hh. lia. }
  rewrite <- (firstn_skipn (Z.to_nat numrec) records) in H.
  destruct (dbfwriter_dbfreader _ _ _ _ _ _ _ H) as (o2 & Hw & Hread).
  - rewrite length_firstn. lia.
  - exact Hnames.
  - rewrite <- (firstn_skipn (Z.to_nat numrec) records) in Hrecs.
    apply Forall_app in Hrecs as [Hrecs _]. exact Hrecs.
  - exists (o2 ++ [chr 26]). rewrite Hw. repeat split. exact Hread.
Qed.

Lemma explicit_count_limits_reader_witness :
  exists rest,
    snd (write_records example_specs
           (skipn (Z.to_nat 1) [example_record; example_record])) = None
    /\ rest = fst (write_records example_specs
                     (skipn (Z.to_nat 1) [example_record; example_record]))
              ++ [chr 26]
    /\ dbfreader (fst (dbfwriter (2008, 3, 14) example_names example_specs
                         [example_record; example_record] (Some 1)))
       = (Names (map stored_name
                   (firstn (length example_specs) example_names))
            :: Specs example_specs
            :: fst (reread_records example_specs
                      (firstn (Z.to_nat 1) [example_record; example_record])
                      rest),
          snd (reread_records example_specs
                 (firstn (Z.to_nat 1) [example_record; example_record])
                 rest)).
Proof.
  apply (explicit_count_limits_reader (2008, 3, 14)).
  - reflexivity.
  - simpl; lia.
  - simpl; lia.
  - repeat constructor.
Defined.

Lemma write_records_len (specs : list fieldspec)
  (records : list (list pyval)) (o : bytes) :
  Forall (fun record => (length specs <= length record)%nat) records ->
  write_records specs records = (o, None) ->
  len o = Z.of_nat (length records)
          * (1 + fold_right Z.add 0 (map spec_size specs)).
Proof.
  intros Hrec; revert o.
  induction Hrec as [|record records Hlen Hrec IH]; intros o H.
  - injection H as <-. reflexivity.
  - cbn [write_records] in H.
    apply and_then_ok in H as (oa & ob & Ha & Hb & ->).
    apply and_then_ok in Ha as (o1 & o2 & [= <-] & Hf & ->).
    apply write_fields_len in Hf. rewrite (combine_fst _ _ Hlen) in Hf.
    specialize (IH _ Hb). unfold len in *.
    rewrite !length_app. change (length (B " ")) with 1%nat.
    cbn [length]. lia.
Qed.

(** A file that the writer wrote to its end is the 32 bytes of the header,
    32 bytes for each field, the carriage return, the records at their
    full length each, and the end-of-file byte as the last: 34 + 32 times
    the number of the fields + the number of the records times the length
    of a record, whatever count of records the header was given. *)
Theorem written_file_length (now : Z * Z * Z) (names : list bytes)
  (specs : list fieldspec) (records : list (list pyval)) (numrec : option Z)
  (file : bytes) :
  dbfwriter now names specs records numrec = (file, None) ->
  (length specs <= length names)%nat ->
  Forall (fun record => (length specs <= length record)%nat) records ->
  len file = 34 + 32 * Z.of_nat (length specs)
             + Z.of_nat (length records)
               * (1 + fold_right Z.add 0 (map spec_size specs))
  /\ exists body, file = body ++ [chr 26].
Proof.
  intros H Hnames Hrecs.
  destruct now as [[year month] day_]. unfold dbfwriter in H.
  destruct (pack_header _ _ _ _ _ _ _) as [hdr|e] eqn:Hh; [|discriminate].
  apply pack_header_inv in Hh as (_ & _ & Hhdr).
  apply and_then_ok in H as (o & ofile & [= <-] & H & ->).
  apply and_then_ok in H as (ospecs & ofile' & Hs & H & ->).
  apply and_then_ok in H as (o & ofile & [= <-] & H & ->).
  apply and_then_ok in H as (orecs & o & Hr & [= <-] & ->).
  apply (write_specs_read _ _ []) in Hs as [_ Hs].
  rewrite length_combine, Nat.min_r in Hs by exact Hnames.
  apply (write_records_len _ _ _ Hrecs) in Hr.
  split.
  - assert (Hl : length hdr = 32%nat) by (rewrite Hhdr; reflexivity).
    unfold len in *. rewrite !length_app, Hl, Hs. cbn [length]. lia.
  - exists (hdr ++ ospecs ++ [chr 13] ++ orecs).
    rewrite <- !app_assoc. reflexivity.
Qed.

Lemma written_file_length_witness :
  len (fst (dbfwriter (2008, 3, 14) example_names example_specs
              [example_record; example_record] (Some 0)))
  = 34 + 32 * Z.of_nat (length example_specs)
    + Z.of_nat (length [example_record; example_record])
      * (1 + fold_right Z.add 0 (map spec_size example_specs))
  /\ exists body,
       fst (dbfwriter (2008, 3, 14) example_names example_specs
              [example_record; example_record] (Some 0))
       = body ++ [chr 26].
Proof.
  apply (written_file_length (2008, 3, 14) example_names example_specs
           [example_record; example_record] (Some 0)).
  - reflexivity.
  - simpl; lia.
  - repeat constructor.
Defined.

(* ================================================================== *)
(** ** What any file is read to *)

Lemma short_not_flag (s : bytes) :
  (length s <= 11)%nat -> bytes_eqb s (B "DeletionFlag") = false.
Proof.
  intros Hlen. apply bytes_eqb_neq. intros ->.
  change (length (B "DeletionFlag")) with 12%nat in Hlen. lia.
Qed.

(** A name read from a file has 11 bytes at most, so that no field of a
    file has the name of the deletion flag. *)
Lemma read_fields_not_flag (n : nat) (f f2 : bytes) (fields : list field) :
  read_fields n f = Ok (fields, f2) ->
  Forall (fun fieldinfo =>
            bytes_eqb (field_name fieldinfo) (B "DeletionFlag") = false)
         fields.
Proof.
  revert f fields; induction n as [|n IH]; intros f fields H.
  - injection H as <- _. constructor.
  - cbn [read_fields] in H.
    destruct (read 32 f) as [data f1].
    unfold unpack_field in H.
    destruct (length data =? 32)%nat; [|discriminate].
    cbn [bind] in H.
    destruct (read_fields n f1) as [[fields' f2']|e] eqn:Hrest;
      [|discriminate].
    cbn [bind] in H. injection H as <- <-.
    constructor; [|exact (IH _ _ Hrest)].
    cbn [field_name]. apply short_not_flag.
    unfold replace_nul, slice.
    etransitivity; [apply filter_length_le|].
    rewrite length_firstn. lia.
Qed.

Lemma split_sizes_length (sizes : list Z) (data : bytes) :
  length (split_sizes sizes data) = length sizes.
Proof.
  revert data; induction sizes as [|n sizes IH]; intros data;
    [reflexivity|].
  cbn [split_sizes length]. rewrite IH. reflexivity.
Qed.

Lemma decode_fields_length (fl : list field) (values : list bytes)
  (result : list pyval) :
  Forall (fun fieldinfo =>
            bytes_eqb (field_name fieldinfo) (B "DeletionFlag") = false) fl ->
  decode_fields (combine fl values) = Ok result ->
  length result = length (combine fl values).
Proof.
  intros Hname; revert values result.
  induction Hname as [|[[[name typ] size] deci] fl Hn Hname IH];
    intros [|value values] result H; try (injection H as <-; reflexivity).
  cbn [combine decode_fields] in H. cbn [field_name] in Hn.
  rewrite Hn in H.
  destruct (decode_value typ deci value); [|discriminate].
  cbn [bind] in H.
  destruct (decode_fields (combine fl values)) as [r|] eqn:Hr;
    [|discriminate].
  injection H as <-. cbn [combine length]. rewrite (IH _ _ Hr). reflexivity.
Qed.

Lemma read_records_all_fields (fields : list field) (n : nat) (f : bytes) :
  Forall (fun fieldinfo =>
            bytes_eqb (field_name fieldinfo) (B "DeletionFlag") = false)
         fields ->
  Forall (fun values : list pyval => length values = length fields)
         (records_yielded (fst (read_records (DeletionFlag :: fields) n f))).
Proof.
  intros Hname; revert f; induction n as [|n IH]; intros f;
    [constructor|].
  cbn [read_records].
  destruct (read _ f) as [data f1].
  unfold unpack_strings.
  destruct (len data =? _); [|constructor].
  pose proof (split_sizes_length (map field_size (DeletionFlag :: fields))
                data) as Hlen.
  destruct (split_sizes _ data) as [|flag record]; [constructor|].
  destruct (negb _); [apply IH|].
  change (decode_fields (combine (DeletionFlag :: fields) (flag :: record)))
    with (decode_fields (combine fields record)).
  destruct (decode_fields (combine fields record)) as [result|e] eqn:Hd;
    [|constructor].
  specialize (IH f1).
  destruct (read_records (DeletionFlag :: fields) n f1) as [rows ending].
  cbn [fst records_yielded] in *. constructor; [|exact IH].
  rewrite (decode_fields_length _ _ _ Hname Hd), length_combine.
  cbn [map length] in Hlen. rewrite length_map in Hlen. lia.
Qed.

(** Whatever the file: when the reader has yielded the names and the
    specs, there is a spec for each name, all that follows are records,
    and each record has a value for each field, in a file that is damaged
    too.  (The field loop leaves out a field with the name of the deletion
    flag; a name read from a file is too short to be it.) *)
Theorem records_have_all_fields (f : bytes) (names : list bytes)
  (specs : list fieldspec) (rows : list row) (ending : result bytes) :
  dbfreader f = (Names names :: Specs specs :: rows, ending) ->
  length specs = length names
  /\ length (records_yielded rows) = length rows
  /\ Forall (fun values : list pyval => length values = length names)
            (records_yielded rows).
Proof.
  unfold dbfreader.
  destruct (read 32 f) as [data f1].
  destruct (unpack_header data) as [[numrec lenheader]|e]; [|discriminate].
  destruct (read_fields _ f1) as [[fields f2]|e] eqn:Hf; [|discriminate].
  apply read_fields_not_flag in Hf.
  destruct (read 1 f2) as [terminator f3].
  destruct (negb _).
  - intros [= <- <- <- _]. rewrite !length_map.
    repeat split; constructor.
  - pose proof (read_records_all_fields fields (Z.to_nat numrec) f3 Hf)
      as Hall.
    pose proof (read_records_only_records (DeletionFlag :: fields)
                  (Z.to_nat numrec) f3) as Honly.
    destruct (read_records _ _ f3) as [rows' ending'].
    cbn [app fst] in *. intros [= <- <- <- _].
    rewrite !length_map. repeat split; assumption.
Qed.

Lemma records_have_all_fields_witness :
  length [(B "C", 2, 0)] = length [B "A"]
  /\ length (records_yielded [Record_ [VStr (B "ab")]])
     = length [Record_ [VStr (B "ab")]]
  /\ Forall (fun values : list pyval => length values = length [B "A"])
            (records_yielded [Record_ [VStr (B "ab")]]).
Proof.
  apply (records_have_all_fields
           (pad 4 ++ chr 3 :: pad 3 ++ chr 65 :: pad 23
              ++ B "A" ++ pad 10 ++ B "C" ++ pad 4 ++ chr 2 :: pad 15
              ++ chr 13 :: B " ab*cd")
           _ _ _ (Raise StructError)).
  vm_compute. reflexivity.
Defined.

Lemma int_body_raises (s : bytes) (e : exn) :
  int_body s = Raise e -> e = ValueError.
Proof.
  unfold int_body. destruct (is_empty s); [congruence|].
  destruct (forallb isdigit s); congruence.
Qed.

Lemma py_int_raises (s : bytes) (e : exn) :
  py_int s = Raise e -> e = ValueError.
Proof.
  unfold py_int.
  assert (Hneg : forall r, (n <- int_body r ;; Ok (- n)) = Raise e ->
                           e = ValueError).
  { intros r. destruct (int_body r) eqn:Hr; [discriminate|].
    cbn [bind]. intros [= <-]. exact (int_body_raises _ _ Hr). }
  destruct (strip s) as [|c r]; [apply int_body_raises|].
  destruct c as [[] [] [] [] [] [] [] []];
    solve [apply int_body_raises | apply Hneg].
Qed.

Lemma Decimal_raises (s : bytes) (e : exn) :
  Decimal s = Raise e -> e = InvalidOperation.
Proof.
  unfold Decimal.
  destruct (match strip s with
            | "+"%char :: r => (false, r)
            | "-"%char :: r => (true, r)
            | r => (false, r)
            end) as [sign r].
  destruct (parse_number r) as [[c x]|]; [discriminate|].
  destruct (parse_special sign r); congruence.
Qed.

Lemma date_raises (y m d : Z) (e : exn) :
  date y m d = Raise e -> e = ValueError.
Proof. unfold date. destruct (_ && _); congruence. Qed.

(** A field that cannot be decoded is a numeric or a date field, and the
    exception is that of the parser. *)
Lemma decode_value_raises (typ : bytes) (deci : Z) (value : bytes) (e : exn) :
  decode_value typ deci value = Raise e ->
  e = ValueError \/ e = InvalidOperation.
Proof.
  unfold decode_value.
  destruct (bytes_eqb typ (B "N")).
  - unfold decode_numeric.
    destruct (bytes_eqb _ []); [discriminate|].
    destruct (negb _).
    + destruct (Decimal _) eqn:Hd; [discriminate|].
      intros [= <-]. right. exact (Decimal_raises _ _ Hd).
    + destruct (py_int _) eqn:Hi; [discriminate|].
      intros [= <-]. left. exact (py_int_raises _ _ Hi).
  - destruct (bytes_eqb typ (B "D")).
    + unfold decode_date. intros H. left.
      destruct (py_int (slice_to value 4)) eqn:Hy;
        [|injection H as <-; exact (py_int_raises _ _ Hy)].
      destruct (py_int (slice value 4 6)) eqn:Hm;
        [|injection H as <-; exact (py_int_raises _ _ Hm)].
      destruct (py_int (slice value 6 8)) eqn:Hd;
        [|injection H as <-; exact (py_int_raises _ _ Hd)].
      exact (date_raises _ _ _ _ H).
    + destruct (bytes_eqb typ (B "L")); discriminate.
Qed.

Lemma decode_fields_raises (l : list (field * bytes)) (e : exn) :
  decode_fields l = Raise e -> e = ValueError \/ e = InvalidOperation.
Proof.
  induction l as [|[[[[name typ] size] deci] value] l IH];
    [discriminate|].
  cbn [decode_fields]. destruct (bytes_eqb name _); [exact IH|].
  destruct (decode_value typ deci value) eqn:Hv;
    [|intros [= <-]; exact (decode_value_raises _ _ _ _ Hv)].
  cbn [bind]. destruct (decode_fields l); [discriminate|].
  intros [= <-]. apply IH. reflexivity.
Qed.

Lemma read_fields_raises (n : nat) (f : bytes) (e : exn) :
  read_fields n f = Raise e -> e = StructError.
Proof.
  revert f; induction n as [|n IH]; intros f; [discriminate|].
  cbn [read_fields]. destruct (read 32 f) as [data f1].
  unfold unpack_field.
  destruct (length data =? 32)%nat; cbn [bind]; [|congruence].
  destruct (read_fields n f1) as [[fields f2]|e'] eqn:Hr;
    [discriminate|].
  intros [= <-]. exact (IH _ Hr).
Qed.

Lemma read_records_raises (fields : list field) (n : nat) (f : bytes)
  (rows : list row) (e : exn) :
  read_records (DeletionFlag :: fields) n f = (rows, Raise e) ->
  e = StructError \/ e = ValueError \/ e = InvalidOperation.
Proof.
  revert f rows; induction n as [|n IH]; intros f rows; [discriminate|].
  cbn [read_records]. destruct (read _ f) as [data f1].
  unfold unpack_strings.
  destruct (len data =? _); [|intros [= _ <-]; left; reflexivity].
  change (map field_size (DeletionFlag :: fields))
    with (1 :: map field_size fields).
  cbn [split_sizes].
  destruct (negb _); [apply IH|].
  destruct (decode_fields _) as [result|e'] eqn:Hd.
  - destruct (read_records _ n f1) as [rows' ending] eqn:Hr.
    intros [= _ ->]. exact (IH _ _ Hr).
  - intros [= _ <-]. right. exact (decode_fields_raises _ _ Hd).
Qed.

(** Whatever the file, the reader raises no other exception than
    [struct.error] (the file ends too early), [AssertionError] (no
    carriage return after the descriptors), [ValueError] (a numeric or
    date field that is no number or no date of the calendar) and
    [InvalidOperation] (a numeric field with decimal places that is no
    decimal number); the look at the deletion flag of a record never
    fails. *)
Theorem reader_exceptions (f : bytes) (rows : list row) (e : exn) :
  dbfreader f = (rows, Raise e) ->
  e = StructError \/ e = AssertionError \/ e = ValueError
  \/ e = InvalidOperation.
Proof.
  unfold dbfreader.
  destruct (read 32 f) as [data f1].
  unfold unpack_header. destruct (length data =? 32)%nat; [|intuition congruence].
  destruct (read_fields _ f1) as [[fields f2]|e'] eqn:Hf.
  - destruct (read 1 f2) as [terminator f3].
    destruct (negb _); [intuition congruence|].
    destruct (read_records _ _ f3) as [rows' ending] eqn:Hr.
    intros [= _ ->]. apply read_records_raises in Hr. tauto.
  - intros [= _ <-]. left. exact (read_fields_raises _ _ _ Hf).
Qed.

Lemma reader_exceptions_witness :
  ValueError = StructError \/ ValueError = AssertionError
  \/ ValueError = ValueError \/ ValueError = InvalidOperation.
Proof.
  apply (reader_exceptions
           (pad 4 ++ chr 1 :: pad 3 ++ chr 65 :: pad 23
              ++ B "A" ++ pad 10 ++ B "N" ++ pad 4 ++ chr 2 :: pad 15
              ++ chr 13 :: B " 1x")
           [Names [B "A"]; Specs [(B "N", 2, 0)]]).
  vm_compute. reflexivity.
Defined.

(* ================================================================== *)
(** ** What fits the header *)

Lemma pack_uint_raises (n : nat) (v : Z) (e : exn) :
  pack_uint n v = Raise e ->
  e = StructError /\ ~ 0 <= v < 256 ^ Z.of_nat n.
Proof.
  unfold pack_uint.
  destruct (Z.leb_spec 0 v); destruct (Z.ltb_spec v (256 ^ Z.of_nat n));
    cbn [andb]; try discriminate; intros [= <-]; split; (reflexivity || lia).
Qed.

Lemma pack_header_ranges (ver yr mon day_ numrec lenheader lenrecord : Z) :
  (exists hdr,
     pack_header ver yr mon day_ numrec lenheader lenrecord = Ok hdr)
  \/ pack_header ver yr mon day_ numrec lenheader lenrecord
     = Raise StructError
     /\ ~ (0 <= ver < 256 /\ 0 <= yr < 256 /\ 0 <= mon < 256
           /\ 0 <= day_ < 256 /\ 0 <= numrec < 4294967296
           /\ 0 <= lenheader < 65536 /\ 0 <= lenrecord < 65536).
Proof.
  unfold pack_header.
  destruct (pack_uint 1 ver) eqn:H0; cbn [bind];
    [|apply pack_uint_raises in H0 as [-> H0]; right; split;
      [reflexivity | change (256 ^ Z.of_nat 1) with 256 in H0; tauto]].
  destruct (pack_uint 1 yr) eqn:H1; cbn [bind];
    [|apply pack_uint_raises in H1 as [-> H1]; right; split;
      [reflexivity | change (256 ^ Z.of_nat 1) with 256 in H1; tauto]].
  destruct (pack_uint 1 mon) eqn:H2; cbn [bind];
    [|apply pack_uint_raises in H2 as [-> H2]; right; split;
      [reflexivity | change (256 ^ Z.of_nat 1) with 256 in H2; tauto]].
  destruct (pack_uint 1 day_) eqn:H3; cbn [bind];
    [|apply pack_uint_raises in H3 as [-> H3]; right; split;
      [reflexivity | change (256 ^ Z.of_nat 1) with 256 in H3; tauto]].
  destruct (pack_uint 4 numrec) eqn:H4; cbn [bind];
    [|apply pack_uint_raises in H4 as [-> H4]; right; split;
      [reflexivity
      | change (256 ^ Z.of_nat 4) with 4294967296 in H4; tauto]].
  destruct (pack_uint 2 lenheader) eqn:H8; cbn [bind];
    [|apply pack_uint_raises in H8 as [-> H8]; right; split;
      [reflexivity | change (256 ^ Z.of_nat 2) with 65536 in H8; tauto]].
  destruct (pack_uint 2 lenrecord) eqn:H10; cbn [bind];
    [|apply pack_uint_raises in H10 as [-> H10]; right; split;
      [reflexivity | change (256 ^ Z.of_nat 2) with 65536 in H10; tauto]].
  left. eexists; reflexivity.
Qed.

Lemma pack_header_ok_ranges
  (ver yr mon day_ numrec lenheader lenrecord : Z) (hdr : bytes) :
  pack_header ver yr mon day_ numrec lenheader lenrecord = Ok hdr ->
  (0 <= yr < 256 /\ 0 <= mon < 256 /\ 0 <= day_ < 256
   /\ 0 <= numrec < 4294967296
   /\ 0 <= lenheader < 65536 /\ 0 <= lenrecord < 65536)
  /\ hdr <> [].
Proof.
  unfold pack_header.
  destruct (pack_uint 1 ver) as [b0|] eqn:H0; [|discriminate].
  destruct (pack_uint 1 yr) as [b1|] eqn:H1; [|discriminate].
  destruct (pack_uint 1 mon) as [b2|] eqn:H2; [|discriminate].
  destruct (pack_uint 1 day_) as [b3|] eqn:H3; [|discriminate].
  destruct (pack_uint 4 numrec) as [b4|] eqn:H4; [|discriminate].
  destruct (pack_uint 2 lenheader) as [b8|] eqn:H8; [|discriminate].
  destruct (pack_uint 2 lenrecord) as [b10|] eqn:H10; [|discriminate].
  cbn [bind]; intros [= <-].
  apply pack_uint_inv in H0 as [_ ->], H1 as [H1 _], H2 as [H2 _],
    H3 as [H3 _], H4 as [H4 _], H8 as [H8 _], H10 as [H10 _].
  change (256 ^ Z.of_nat 1) with 256 in *.
  change (256 ^ Z.of_nat 2) with 65536 in *.
  change (256 ^ Z.of_nat 4) with 4294967296 in *.
  split; [tauto | discriminate].
Qed.

(** The writer raises [struct.error] before it has written a byte when, and
    only when, the header has no room for what goes into it: the year is
    not one of 1900 to 2155, the month or the day does not fit a byte, the
    count of records does not fit 32 bits, there are more than 2046 field
    specs, or the sizes of the fields and the flag come to more than 65535
    bytes or to less than none. *)
Theorem header_limits (year month day_ : Z) (names : list bytes)
  (specs : list fieldspec) (records : list (list pyval)) (numrec : option Z) :
  dbfwriter (year, month, day_) names specs records numrec
  = ([], Some StructError)
  <-> ~ (1900 <= year <= 2155
         /\ 0 <= month <= 255 /\ 0 <= day_ <= 255
         /\ 0 <= match numrec with
                 | None => Z.of_nat (length records)
                 | Some n => n
                 end < 4294967296
         /\ (length specs <= 2046)%nat
         /\ 0 <= 1 + fold_right Z.add 0 (map spec_size specs) <= 65535).
Proof.
  unfold dbfwriter.
  destruct (pack_header_ranges 3 (year - 1900) month day_
              match numrec with
              | None => Z.of_nat (length records)
              | Some n => n
              end
              (Z.of_nat (length specs) * 32 + 33)
              (fold_right Z.add 0 (map spec_size specs) + 1))
    as [[hdr Hh] | [Hh Hno]]; rewrite Hh.
  - apply pack_header_ok_ranges in Hh as [Hr Hhdr].
    split; [|intros Hno; exfalso; apply Hno; lia].
    intros H. exfalso.
    destruct (and_then (write_specs _) _) as [o e].
    cbn [and_then emit] in H. injection H as H _.
    apply app_eq_nil in H as [H _]. exact (Hhdr H).
  - split; [intros _|reflexivity].
    intros Hyes; apply Hno; lia.
Qed.

(* ================================================================== *)
(** ** Integers in fields with decimal places *)

Lemma span_digits_all (ds : bytes) :
  forallb isdigit ds = true -> span_digits ds = (ds, []).
Proof.
  induction ds as [|c ds IH]; [reflexivity|].
  cbn [forallb]; intros H; apply andb_true_iff in H as [Hc Hds].
  cbn [span_digits]. rewrite Hc, (IH Hds). reflexivity.
Qed.

Lemma parse_number_digits (ds : bytes) :
  ds <> [] -> forallb isdigit ds = true ->
  parse_number ds = Some (digits_value ds, 0).
Proof.
  intros Hne H. unfold parse_number. rewrite (span_digits_all ds H).
  destruct ds as [|c r]; [contradiction|].
  cbn [is_empty andb parse_exp]. rewrite app_nil_r. reflexivity.
Qed.

Lemma Decimal_digits (ds : bytes) :
  ds <> [] -> forallb isdigit ds = true ->
  Decimal ds = Ok (DecFinite false (digits_value ds) 0).
Proof.
  intros Hne H. unfold Decimal. rewrite (strip_digits ds H).
  assert (Hb : match parse_number ds with
               | Some (c, e) => Ok (DecFinite false c e)
               | None => match parse_special false ds with
                         | Some d => Ok d
                         | None => Raise InvalidOperation
                         end
               end = Ok (DecFinite false (digits_value ds) 0))
    by (rewrite (parse_number_digits ds Hne H); reflexivity).
  destruct ds as [|c r]; [contradiction|].
  destruct c as [[] [] [] [] [] [] [] []]; try exact Hb;
    cbn in H; discriminate H.
Qed.

Lemma Decimal_minus_digits (ds : bytes) :
  ds <> [] -> forallb isdigit ds = true ->
  Decimal ("-"%char :: ds) = Ok (DecFinite true (digits_value ds) 0).
Proof.
  intros Hne H. unfold Decimal, strip.
  rewrite lstrip_nonspace, rstrip_nonspace, rstrip_digits
    by (reflexivity || exact H).
  rewrite (parse_number_digits ds Hne H). reflexivity.
Qed.

(** [Decimal(str(n))] is the integer [n] as a decimal number with the
    exponent 0. *)
Lemma Decimal_str_int (n : Z) :
  Decimal (str_int n) = Ok (DecFinite (n <? 0) (Z.abs n) 0).
Proof.
  destruct (Z_lt_le_dec n 0) as [Hneg | Hpos].
  - rewrite (str_int_neg n Hneg).
    destruct (str_int_nonneg (- n)) as (ds & -> & Hne & Hd & Hv); [lia|].
    rewrite Decimal_minus_digits, Hv by assumption.
    replace (n <? 0) with true by (symmetry; apply Z.ltb_lt; lia).
    do 2 f_equal; lia.
  - destruct (str_int_nonneg n Hpos) as (ds & -> & Hne & Hd & Hv).
    rewrite Decimal_digits, Hv by assumption.
    replace (n <? 0) with false by (symmetry; apply Z.ltb_ge; lia).
    do 2 f_equal; lia.
Qed.

(** An integer written to a numeric field that has decimal places is read
    back as a decimal number, not as an integer: the number it was, with
    the exponent 0.  This is so for the integer 0 too, which is read as
    the integer 0 only from a field that is blank. *)
Theorem int_in_decimal_field (n size deci : Z) :
  len (str (VInt n)) <= size ->
  deci <> 0 ->
  exists s,
    encode_value (B "N") size (VInt n) = Ok s
    /\ decode_value (B "N") deci s
       = Ok (VDecimal (DecFinite (n <? 0) (Z.abs n) 0)).
Proof.
  intros Hfit Hdeci. cbn [str] in Hfit.
  exists (rjust (str_int n) size " ").
  pose proof (rjust_len (str_int n) size " " Hfit) as Hlen.
  split.
  - unfold encode_value.
    change (render_value (B "N") size (VInt n))
      with (Ok (rjust (str_int n) size " ")).
    cbn [bind]; rewrite Hlen, Z.eqb_refl; reflexivity.
  - change (decode_value (B "N") deci (rjust (str_int n) size " "))
      with (decode_numeric deci (rjust (str_int n) size " ")).
    unfold decode_numeric, rjust.
    destruct (str_int_head n) as (c & r & Hs & Hc & Hnul).
    rewrite replace_nul_spaces, lstrip_spaces, Hs, Hnul.
    rewrite (lstrip_nonspace c r Hc). cbn [bytes_eqb].
    replace (deci =? 0) with false by (symmetry; apply Z.eqb_neq; exact Hdeci).
    cbn [negb]. rewrite <- Hs, Decimal_str_int; reflexivity.
Qed.

Lemma int_in_decimal_field_witness :
  exists s,
    encode_value (B "N") 4 (VInt 0) = Ok s
    /\ decode_value (B "N") 2 s
       = Ok (VDecimal (DecFinite (0 <? 0) (Z.abs 0) 0)).
Proof.
  apply (int_in_decimal_field 0 4 2); [vm_compute; discriminate | lia].
Defined.

(* ================================================================== *)
(** ** When the writer comes to its end *)

Lemma and_then_ok_iff (a b : written) :
  (exists o, and_then a b = (o, None))
  <-> (exists oa, a = (oa, None)) /\ (exists ob, b = (ob, None)).
Proof.
  split.
  - intros [o H]. apply and_then_ok in H as (oa & ob & Ha & Hb & _).
    split; eexists; eassumption.
  - intros [[oa ->] [ob ->]]. eexists; reflexivity.
Qed.

Lemma emit_ok (s : bytes) : exists o, emit s = (o, None).
Proof. eexists; reflexivity. Qed.

Lemma pack_field_ok_iff (name typ : bytes) (size deci : Z) :
  (exists fld, pack_field name typ size deci = Ok fld)
  <-> valid_spec (typ, size, deci) = true.
Proof.
  unfold pack_field, valid_spec, pack_uint.
  change (256 ^ Z.of_nat 1) with 256.
  destruct (length typ =? 1)%nat; cbn [bind andb];
    [|split; [intros [? H]|intros H]; discriminate H].
  destruct (0 <=? size); cbn [bind andb];
    [|split; [intros [? H]|intros H]; discriminate H].
  destruct (size <? 256); cbn [bind andb];
    [|split; [intros [? H]|intros H]; discriminate H].
  destruct (0 <=? deci); cbn [bind andb];
    [|split; [intros [? H]|intros H]; discriminate H].
  destruct (deci <? 256); cbn [bind andb];
    [|split; [intros [? H]|intros H]; discriminate H].
  split; [reflexivity | eexists; reflexivity].
Qed.

Lemma write_specs_ok_iff (l : list (bytes * fieldspec)) :
  (exists o, write_specs l = (o, None))
  <-> forallb valid_spec (map snd l) = true.
Proof.
  induction l as [|[name [[typ size] deci]] l IH];
    [split; [reflexivity | intros _; apply emit_ok]|].
  cbn [write_specs map snd forallb]. rewrite andb_true_iff, <- IH.
  rewrite <- (pack_field_ok_iff (ljust name 11 zero)).
  destruct (pack_field _ typ size deci) as [fld|e].
  - rewrite and_then_ok_iff. split.
    + intros [_ H]. split; [eexists; reflexivity | exact H].
    + intros [_ H]. split; [apply emit_ok | exact H].
  - split; [intros [? H]; discriminate H | intros [[? H] _]; discriminate H].
Qed.

Lemma write_fields_ok_iff (l : list (fieldspec * pyval)) :
  (exists o, write_fields l = (o, None)) <-> forallb encodes l = true.
Proof.
  induction l as [|[[[typ size] deci] v] l IH];
    [split; [reflexivity | intros _; apply emit_ok]|].
  cbn [write_fields forallb encodes]. rewrite andb_true_iff, <- IH.
  destruct (encode_value typ size v) as [s|e].
  - rewrite and_then_ok_iff. split.
    + intros [_ H]. split; [reflexivity | exact H].
    + intros [_ H]. split; [apply emit_ok | exact H].
  - split; [intros [? H]; discriminate H | intros [H _]; discriminate H].
Qed.

Lemma write_records_ok_iff (specs : list fieldspec)
  (records : list (list pyval)) :
  (exists o, write_records specs records = (o, None))
  <-> forallb (fun record => forallb encodes (combine specs record)) records
      = true.
Proof.
  induction records as [|record records IH];
    [split; [reflexivity | intros _; apply emit_ok]|].
  cbn [write_records forallb]. rewrite andb_true_iff, <- IH.
  rewrite and_then_ok_iff. unfold write_record.
  rewrite and_then_ok_iff, write_fields_ok_iff.
  split; [tauto|]. intros [H1 H2]. split; [|exact H2].
  split; [apply emit_ok | exact H1].
Qed.

(** The writer comes to its end without an exception when, and only when,
    the header has room for the date, the count of records, the number of
    the fields and the length of a record, every field spec that has a
    name fits a descriptor (a type of one character, a size and a count of
    decimal places from 0 to 255), and every value that has a field spec is
    rendered to the size of its field. *)
Theorem writer_succeeds_iff (year month day_ : Z) (names : list bytes)
  (specs : list fieldspec) (records : list (list pyval)) (numrec : option Z) :
  (exists file,
     dbfwriter (year, month, day_) names specs records numrec = (file, None))
  <-> (1900 <= year <= 2155
       /\ 0 <= month <= 255 /\ 0 <= day_ <= 255
       /\ 0 <= match numrec with
               | None => Z.of_nat (length records)
               | Some n => n
               end < 4294967296
       /\ (length specs <= 2046)%nat
       /\ 0 <= 1 + fold_right Z.add 0 (map spec_size specs) <= 65535)
      /\ forallb valid_spec (map snd (combine names specs)) = true
      /\ forallb (fun record => forallb encodes (combine specs record))
           records = true.
Proof.
  unfold dbfwriter.
  rewrite <- write_specs_ok_iff, <- write_records_ok_iff.
  destruct (pack_header_ranges 3 (year - 1900) month day_
              match numrec with
              | None => Z.of_nat (length records)
              | Some n => n
              end
              (Z.of_nat (length specs) * 32 + 33)
              (fold_right Z.add 0 (map spec_size specs) + 1))
    as [[hdr Hh] | [Hh Hno]]; rewrite Hh.
  - apply pack_header_ok_ranges in Hh as [Hr _].
    rewrite !and_then_ok_iff. split.
    + intros (_ & Hs & _ & Hrec & _). split; [lia|]. split; assumption.
    + intros (_ & Hs & Hrec).
      split; [apply emit_ok|]. split; [exact Hs|].
      split; [apply emit_ok|]. split; [exact Hrec | apply emit_ok].
  - split; [intros [? H]; discriminate H|].
    intros [Hyes _]. exfalso. apply Hno. lia.
Qed.

Lemma write_records_surplus (specs : list fieldspec)
  (records : list (list pyval)) :
  write_records specs (map (firstn (length specs)) records)
  = write_records specs records.
Proof.
  induction records as [|record records IH]; [reflexivity|].
  cbn [map write_records]. unfold write_record.
  rewrite IH, <- combine_firstn_l. reflexivity.
Qed.

(** The names and the values that have no field spec are passed over: a
    name behind the last field spec and a value of a record behind it
    change nothing in what is written and raise nothing, whatever they
    are. *)
Theorem surplus_is_dropped (now : Z * Z * Z) (names : list bytes)
  (specs : list fieldspec) (records : list (list pyval)) (numrec : option Z) :
  dbfwriter now names specs records numrec
  = dbfwriter now (firstn (length specs) names) specs
      (map (firstn (length specs)) records) numrec.
Proof.
  destruct now as [[year month] day_]. unfold dbfwriter.
  rewrite write_records_surplus, length_map, <- combine_firstn_r.
  reflexivity.
Qed.
